(** * Fit-For-Role-AI: the text-similarity and keyword-gap engine of [app.py]

    A shallow embedding of the core functions of [src/app.py]
    ([clean_text], [get_keywords], [calculate_similarity],
    [analyze_missing], [generate_tailored_suggestions]) and the properties
    stated about them.

    Conventions.
    - A Python [str] is a [string]; each [ascii] is one code point below 256
      (the Latin-1 range), with Python's own classification of these code
      points ([str.isspace], [str.lower], the [\w] class of [re]).
    - The patterns handed to [re] are values of a small pattern language,
      run by a backtracking matcher that follows [re]'s leftmost, greedy
      search.
    - Python exceptions are explicit: a computation is a value of [py A],
      the events it produced together with [Ok v] or [Raised e].
    - The similarity score is a real number: the bounds, the constants 0 and
      95 and the events of the scorer are stated on it; nothing is stated that
      depends on how binary64 arithmetic rounds or on the order in which the
      library adds up its terms. The skill score handed to the suggestion
      generator is a Python value, a binary64 float among others.
    - scikit-learn is not part of the repository: [calculate_similarity]
      takes the vectorizer-and-cosine call as a parameter, and [Sklearn]
      describes that call for the default [TfidfVectorizer]. *)

From Stdlib Require Import String Ascii List Arith Bool Lia Sorted Permutation.
From Stdlib Require Import Reals Lra.
From Stdlib Require Import Floats.
From stdpp Require Import gmap strings.
Import ListNotations.

Local Open Scope string_scope.
Local Open Scope list_scope.
Local Open Scope nat_scope.

(** ** Characters *)

Module Char.

Definition code (c : ascii) : nat := nat_of_ascii c.

Definition between (lo hi n : nat) : bool := (lo <=? n) && (n <=? hi).

(** [str.isspace] / [\s]: TAB..CR, FS..US, SPACE, NEL, NBSP. *)
Definition is_space (c : ascii) : bool :=
  let n := code c in
  between 9 13 n || between 28 32 n || (n =? 133) || (n =? 160).

(** The class [[a-z]]. *)
Definition is_az (c : ascii) : bool := between 97 122 (code c).

(** [\w] of a [str] pattern: alphanumeric code points and the underscore. *)
Definition is_word (c : ascii) : bool :=
  let n := code c in
  between 48 57 n || between 65 90 n || between 97 122 n || (n =? 95)
  || (n =? 170) || (n =? 178) || (n =? 179) || (n =? 181) || (n =? 185)
  || (n =? 186) || between 188 190 n
  || between 192 214 n || between 216 246 n || between 248 255 n.

(** [str.lower] on one code point: A-Z and the upper-case letters of
    Latin-1 (all of 192..222 but the multiplication sign 215). *)
Definition lower (c : ascii) : ascii :=
  let n := code c in
  if between 65 90 n || (between 192 222 n && negb (n =? 215))
  then ascii_of_nat (n + 32) else c.

End Char.

(** ** Strings *)

Fixpoint map_str (f : ascii -> ascii) (s : string) : string :=
  match s with
  | EmptyString => EmptyString
  | String c s' => String (f c) (map_str f s')
  end.

(** [s.lower()] *)
Definition str_lower (s : string) : string := map_str Char.lower s.

Fixpoint take_while (p : ascii -> bool) (s : string) : string :=
  match s with
  | String c s' => if p c then String c (take_while p s') else EmptyString
  | EmptyString => EmptyString
  end.

Fixpoint drop_while (p : ascii -> bool) (s : string) : string :=
  match s with
  | String c s' => if p c then drop_while p s' else s
  | EmptyString => EmptyString
  end.

Fixpoint all_chars (p : ascii -> bool) (s : string) : bool :=
  match s with
  | String c s' => p c && all_chars p s'
  | EmptyString => true
  end.

Definition is_empty (s : string) : bool :=
  match s with EmptyString => true | String _ _ => false end.

(** [s.lstrip()], [s.rstrip()], [s.strip()] *)
Definition lstrip (s : string) : string := drop_while Char.is_space s.

Fixpoint rstrip (s : string) : string :=
  match s with
  | EmptyString => EmptyString
  | String c s' =>
      let r := rstrip s' in
      if Char.is_space c && is_empty r then EmptyString else String c r
  end.

Definition strip (s : string) : string := rstrip (lstrip s).

(** [sep.join(l)] *)
Fixpoint join (sep : string) (l : list string) : string :=
  match l with
  | [] => ""
  | [x] => x
  | x :: l' => x ++ sep ++ join sep l'
  end.

(** [pat in s] for strings: [pat] occurs in [s] as a substring. *)
Fixpoint contains (pat s : string) : bool :=
  String.prefix pat s ||
  match s with
  | EmptyString => false
  | String _ s' => contains pat s'
  end.

(** ** Regular expressions

    A pattern is a sequence of atoms: the zero-width word boundary [\b], one
    character of a class, and the greedy repetition [cls{min,}] of a class. *)

Module Re.

Inductive atom : Type :=
| WordB
| One (cls : ascii -> bool)
| Rep (cls : ascii -> bool) (min : nat).

Definition pattern : Type := list atom.

Definition word_before (prev : option ascii) : bool :=
  match prev with Some c => Char.is_word c | None => false end.

Definition word_at (s : string) : bool :=
  match s with String c _ => Char.is_word c | EmptyString => false end.

(** [\b] holds between [prev] and the head of [s] when exactly one side is
    a word character; the two ends of the text count as non-word. *)
Definition at_boundary (prev : option ascii) (s : string) : bool :=
  xorb (word_before prev) (word_at s).

(** [rep cls min k prev s]: take characters of [cls] greedily, then run the
    continuation [k] on the rest; when that fails give one character back
    and retry, as long as at least [min] characters are kept. The result
    is the text matched from [s] on. *)
Fixpoint rep (cls : ascii -> bool) (min : nat)
    (k : option ascii -> string -> option string)
    (prev : option ascii) (s : string) : option string :=
  let stop := match min with O => k prev s | S _ => None end in
  match s with
  | String c s' =>
      if cls c then
        match rep cls (Nat.pred min) k (Some c) s' with
        | Some m => Some (String c m)
        | None => stop
        end
      else stop
  | EmptyString => stop
  end.

(** The text matched by the pattern anchored at the head of [s], the
    character before it being [prev]. *)
Fixpoint match_here (r : pattern) (prev : option ascii) (s : string)
    : option string :=
  match r with
  | [] => Some EmptyString
  | WordB :: r' => if at_boundary prev s then match_here r' prev s else None
  | One cls :: r' =>
      match s with
      | String c s' =>
          if cls c then option_map (String c) (match_here r' (Some c) s') else None
      | EmptyString => None
      end
  | Rep cls min :: r' => rep cls min (match_here r') prev s
  end.

(** [re.findall(r, s)] for a pattern without groups. [skip] counts the
    characters still covered by the last match. *)
Fixpoint findall_from (r : pattern) (prev : option ascii) (skip : nat)
    (s : string) : list string :=
  match s with
  | EmptyString =>
      match skip, match_here r prev EmptyString with
      | O, Some m => [m]
      | _, _ => []
      end
  | String c s' =>
      match skip with
      | S n => findall_from r (Some c) n s'
      | O =>
          match match_here r prev s with
          | Some m => m :: findall_from r (Some c) (Nat.pred (String.length m)) s'
          | None => findall_from r (Some c) 0 s'
          end
      end
  end.

Definition findall (r : pattern) (s : string) : list string :=
  findall_from r None 0 s.

(** [re.sub(r, repl, s)] for a literal replacement [repl]. *)
Fixpoint sub_from (r : pattern) (repl : string) (prev : option ascii)
    (skip : nat) (s : string) : string :=
  match s with
  | EmptyString =>
      match skip, match_here r prev EmptyString with
      | O, Some _ => repl
      | _, _ => EmptyString
      end
  | String c s' =>
      match skip with
      | S n => sub_from r repl (Some c) n s'
      | O =>
          match match_here r prev s with
          | Some EmptyString => repl ++ String c (sub_from r repl (Some c) 0 s')
          | Some m => repl ++ sub_from r repl (Some c) (Nat.pred (String.length m)) s'
          | None => String c (sub_from r repl (Some c) 0 s')
          end
      end
  end.

Definition sub (r : pattern) (repl s : string) : string :=
  sub_from r repl None 0 s.

End Re.

(** ** Text normalizer *)

(** [r'\s+'] *)
Definition ws_pattern : Re.pattern := [Re.Rep Char.is_space 1].

(** [r'\b[a-z]{3,}\b'] *)
Definition kw_pattern : Re.pattern := [Re.WordB; Re.Rep Char.is_az 3; Re.WordB].

(** [clean_text]: [re.sub(r'\s+', ' ', text).lower()] *)
Definition clean_text (text : string) : string :=
  str_lower (Re.sub ws_pattern " " text).

(** [get_keywords]: [re.findall(r'\b[a-z]{3,}\b', text.lower())] *)
Definition get_keywords (text : string) : list string :=
  Re.findall kw_pattern (str_lower text).

(** ** Python computations: events, exceptions, [try]/[except] *)

Inductive exn : Type :=
| ValueError (msg : string)
| TypeError (msg : string).

Definition exn_msg (e : exn) : string :=
  match e with ValueError m => m | TypeError m => m end.

(** What a computation does besides returning: a call of the vectorizer on a
    corpus, and a message shown with [st.error]. *)
Inductive event : Type :=
| FitTransform (corpus : list string)
| StError (msg : string).

Inductive result (A : Type) : Type :=
| Ok (v : A)
| Raised (e : exn).
Arguments Ok {A} v.
Arguments Raised {A} e.

Definition py (A : Type) : Type := (list event * result A)%type.

Definition ret {A : Type} (v : A) : py A := ([], Ok v).

Definition raise {A : Type} (e : exn) : py A := ([], Raised e).

Definition emit (ev : event) : py unit := ([ev], Ok tt).

Definition bind {A B : Type} (m : py A) (f : A -> py B) : py B :=
  match m with
  | (evs, Ok v) => let (evs', r) := f v in (evs ++ evs', r)
  | (evs, Raised e) => (evs, Raised e)
  end.

(** [try: body  except ...: handler] *)
Definition try_except {A : Type} (body : py A) (handler : exn -> py A) : py A :=
  match body with
  | (evs, Ok v) => (evs, Ok v)
  | (evs, Raised e) => let (evs', r) := handler e in (evs ++ evs', r)
  end.

Notation "'do' x <- m 'then' k" := (bind m (fun x => k))
  (at level 10, x name, m at level 100, k at level 200).
Notation "'run' m 'then' k" := (bind m (fun _ => k))
  (at level 10, m at level 100, k at level 200).

(** ** Similarity scorer *)

(** [not s.strip()] *)
Definition blank (s : string) : bool := is_empty (strip s).

(** [min(a, b)] of two numbers: [b] when [b < a], else [a]. *)
Definition py_min (a b : R) : R := if Rlt_dec b a then b else a.

Section Scorer.

(** [tfidf_cosine resume job_desc] stands for the two library calls
    [TfidfVectorizer().fit_transform([resume, job_desc])] and
    [cosine_similarity(vecs[0:1], vecs[1:2])[0][0]]: the cosine, or the
    exception the library raised. Floating-point numbers are read as reals. *)
Variable tfidf_cosine : string -> string -> result R.

Definition vectorize (resume job_desc : string) : py R :=
  run emit (FitTransform [resume; job_desc]) then ([], tfidf_cosine resume job_desc).

Definition calculate_similarity (resume job_desc : string) : py R :=
  try_except
    (if blank resume || blank job_desc then ret 0%R
     else
       do c <- vectorize resume job_desc then
       let similarity := (c * 100)%R in
       ret (py_min (similarity * 1.5) 95))
    (fun e =>
       run emit (StError ("Error calculating similarity: " ++ exn_msg e)) then
       ret 0%R).

End Scorer.

(** ** The vectorizer and the cosine (scikit-learn) *)

Module Sklearn.

(** Modelled from the spec: the default [token_pattern] of the vectorizer,
    [r"(?u)\b\w\w+\b"]; scikit-learn is not part of the repository. *)
Definition token_pattern : Re.pattern :=
  [Re.WordB; Re.One Char.is_word; Re.Rep Char.is_word 1; Re.WordB].

(** Modelled from the spec: the terms of a document, lower-cased first. *)
Definition analyze (doc : string) : list string :=
  Re.findall token_pattern (str_lower doc).

(** Modelled from the spec: the vocabulary of a corpus. *)
Definition vocabulary (docs : list string) : gset string :=
  foldr (fun d V => list_to_set (analyze d) ∪ V) ∅ docs.

(** Modelled from the spec: term frequency, the raw count of a term. *)
Definition tf (t : string) (doc : string) : nat :=
  count_occ string_dec (analyze doc) t.

(** Modelled from the spec: document frequency of a term in the corpus. *)
Definition df (t : string) (docs : list string) : nat :=
  length (List.filter (fun d => 0 <? tf t d) docs).

(** Modelled from the spec: smoothed inverse document frequency,
    [ln((1 + n) / (1 + df)) + 1]. *)
Definition idf (t : string) (docs : list string) : R :=
  (ln ((1 + INR (length docs)) / (1 + INR (df t docs))) + 1)%R.

(** Modelled from the spec: the unnormalised tf-idf weight. *)
Definition weight (docs : list string) (doc : string) (t : string) : R :=
  (INR (tf t doc) * idf t docs)%R.

(** A sum over the features in exact arithmetic, where the order of the
    terms does not matter; the library adds binary64 numbers in the order in
    which it stores the terms. *)
Definition sum_over (feats : list string) (f : string -> R) : R :=
  fold_right (fun t acc => (f t + acc)%R) 0%R feats.

(** Modelled from the spec: Euclidean row normalisation; a zero row is left
    as it is. *)
Definition l2_normalize (feats : list string) (x : string -> R) : string -> R :=
  let norm := R_sqrt.sqrt (sum_over feats (fun t => x t * x t)%R) in
  if Req_dec_T norm 0 then x else (fun t => x t / norm)%R.

Record matrix : Type := { features : list string; rows : list (string -> R) }.

Definition row (M : matrix) (i : nat) : string -> R :=
  nth i (rows M) (fun _ => 0%R).

(** Modelled from the spec: [TfidfVectorizer().fit_transform(docs)], which
    refuses a corpus without any term. *)
Definition fit_transform (docs : list string) : result matrix :=
  let V := vocabulary docs in
  if decide (V = ∅) then
    Raised (ValueError "empty vocabulary; perhaps the documents only contain stop words")
  else
    Ok {| features := elements V;
          rows := map (fun d => l2_normalize (elements V) (weight docs d)) docs |}.

(** Modelled from the spec: the single entry of
    [cosine_similarity(X, Y)] for one-row [X] and [Y]: both rows are
    normalised, then multiplied. *)
Definition cosine_similarity (feats : list string) (x y : string -> R) : R :=
  sum_over feats (fun t => l2_normalize feats x t * l2_normalize feats y t)%R.

Definition tfidf_cosine (resume job_desc : string) : result R :=
  match fit_transform [resume; job_desc] with
  | Ok vecs => Ok (cosine_similarity (features vecs) (row vecs 0) (row vecs 1))
  | Raised e => Raised e
  end.

End Sklearn.

(** ** Gap analyzer *)

(** [Counter(l)]: each element mapped to its number of occurrences; a key
    that is absent reads as 0. *)
Definition Counter (l : list string) : gmap string nat :=
  foldl (fun m w => <[w := S (m !!! w)]> m) ∅ l.

(** One step of a stable sort on the count, largest first: the new pair goes
    in front of the first pair whose count is not larger. *)
Fixpoint insert_desc (x : string * nat) (l : list (string * nat))
    : list (string * nat) :=
  match l with
  | [] => [x]
  | y :: l' => if snd x <? snd y then y :: insert_desc x l' else x :: l
  end.

(** [sorted(l, key=lambda x: x[1], reverse=True)] *)
Definition sorted_desc (l : list (string * nat)) : list (string * nat) :=
  foldr insert_desc [] l.

Definition stopwords : list string :=
  ["the"; "and"; "for"; "with"; "this"; "that"; "have"; "has"].

(** [{'the', 'and', 'for', 'with', 'this', 'that', 'have', 'has'}] *)
Definition common_words : gset string := list_to_set stopwords.

Section GapAnalyzer.

(** The order in which Python iterates over a set; the language leaves it
    open, so it is a parameter. *)
Variable set_iter : gset string -> list string.

Definition analyze_missing (resume_text job_desc : string) : py (list string) :=
  try_except
    (let resume_words : gset string := list_to_set (get_keywords resume_text) in
     let job_words : gset string := list_to_set (get_keywords job_desc) in
     let missing := job_words ∖ resume_words ∖ common_words in
     let job_word_counts := Counter (get_keywords job_desc) in
     let missing_important :=
       take 5 (sorted_desc
                 (map (fun word => (word, job_word_counts !!! word)) (set_iter missing))) in
     ret (map fst missing_important))
    (fun _ => ret []).

End GapAnalyzer.

(** ** Suggestion generator *)

(** The values a caller can hand over as [skill_score]. *)
Inductive pyval : Type :=
| PyFloat (x : float)
| PyInt (z : Z)
| PyNone
| PyStr (s : string).

(** [v < 60] *)
Definition lt_60 (v : pyval) : py bool :=
  match v with
  | PyFloat x => ret (PrimFloat.ltb x 60%float)
  | PyInt z => ret (z <? 60)%Z
  | PyNone => raise (TypeError "'<' not supported between instances of 'NoneType' and 'int'")
  | PyStr _ => raise (TypeError "'<' not supported between instances of 'str' and 'int'")
  end.

(** [w in l] for a list of strings *)
Definition mem (w : string) (l : list string) : bool := existsb (String.eqb w) l.

Definition nonempty {A : Type} (l : list A) : bool :=
  match l with [] => false | _ :: _ => true end.

Definition missing_line (kws : list string) : string :=
  "🔍 **Missing keywords:** " ++ join ", " kws.
Definition skills_line (kws : list string) : string :=
  "✏️ Add these skills: " ++ join ", " (take 3 kws) ++ " to your skills section".
Definition python_line : string := "🐍 Mention Python projects from coursework".
Definition cad_line : string := "📐 Highlight any CAD projects from mechanical labs".
Definition data_line : string := "📊 Include any data analysis projects".
Definition intern_line : string := "🎯 Frame academic projects as 'pre-internship experience'".
Definition design_line : string := "✏️ Add design projects from engineering graphics".
Definition analysis_line : string := "🔢 Highlight math/statistics coursework".
Definition fallback_line : string := "⚠️ Could not generate specific suggestions".

(** [if cond: suggestions.append(line)] *)
Definition append_if (cond : bool) (line : string) (suggestions : list string)
    : list string :=
  if cond then suggestions ++ [line] else suggestions.

Section SuggestionGenerator.

Variable set_iter : gset string -> list string.

Definition generate_tailored_suggestions
    (resume_text job_desc : string) (skill_score : pyval) : py (list string) :=
  let suggestions : list string := [] in
  try_except
    (do missing_keywords <- analyze_missing set_iter resume_text job_desc then
     do suggestions <-
       (if nonempty missing_keywords then
          let suggestions := suggestions ++ [missing_line missing_keywords] in
          do low <- lt_60 skill_score then
          let suggestions := append_if low (skills_line missing_keywords) suggestions in
          let suggestions := append_if (mem "python" missing_keywords) python_line suggestions in
          let suggestions := append_if (mem "cad" missing_keywords) cad_line suggestions in
          let suggestions := append_if (mem "data" missing_keywords) data_line suggestions in
          ret suggestions
        else ret suggestions) then
     let job_desc_lower := str_lower job_desc in
     let suggestions := append_if (contains "intern" job_desc_lower) intern_line suggestions in
     let suggestions := append_if (contains "design" job_desc_lower) design_line suggestions in
     let suggestions := append_if (contains "analysis" job_desc_lower) analysis_line suggestions in
     ret suggestions)
    (fun _ => ret [fallback_line]).

End SuggestionGenerator.

(** ** Reference descriptions of the normalizer *)

(** Every maximal run of whitespace becomes one space; [in_ws] tells that the
    previous character was whitespace. *)
Fixpoint squeeze (in_ws : bool) (s : string) : string :=
  match s with
  | EmptyString => EmptyString
  | String c s' =>
      if Char.is_space c then
        if in_ws then squeeze true s' else String " " (squeeze true s')
      else String c (squeeze false s')
  end.

Definition cons_head (c : ascii) (l : list string) : list string :=
  match l with
  | w :: l' => String c w :: l'
  | [] => [String c EmptyString]
  end.

Definition starts_with (p : ascii -> bool) (s : string) : bool :=
  match s with String c _ => p c | EmptyString => false end.

(** The maximal runs of characters of class [p] in [s], left to right. *)
Fixpoint runs (p : ascii -> bool) (s : string) : list string :=
  match s with
  | EmptyString => []
  | String c s' =>
      if p c then
        if starts_with p s' then cons_head c (runs p s')
        else String c EmptyString :: runs p s'
      else runs p s'
  end.

(** A keyword: three or more characters, all of them in [a-z]. *)
Definition is_keyword (w : string) : bool :=
  (3 <=? String.length w) && all_chars Char.is_az w.

(** The claim's description of [get_keywords]: the maximal runs of [a-z]
    characters of the lower-cased text that have three or more characters. *)
Definition alpha_runs_3 (text : string) : list string :=
  List.filter (fun w => 3 <=? String.length w) (runs Char.is_az (str_lower text)).

(** What the pattern selects: the maximal runs of word characters of the
    lower-cased text that are keywords. *)
Definition word_runs_kw (text : string) : list string :=
  List.filter is_keyword (runs Char.is_word (str_lower text)).

(** ** Reference description of the suggestion rules *)

(** [v] is a number, so that [v < 60] has a value. *)
Definition is_number (v : pyval) : bool :=
  match v with PyFloat _ | PyInt _ => true | PyNone | PyStr _ => false end.

(** The value of [v < 60] for a number [v]. *)
Definition below_60 (v : pyval) : bool :=
  match v with
  | PyFloat x => PrimFloat.ltb x 60%float
  | PyInt z => (z <? 60)%Z
  | PyNone | PyStr _ => false
  end.

Definition fires (cond : bool) (line : string) : list string :=
  if cond then [line] else [].

(** Rule 1: one line listing all the missing keywords. *)
Definition rule_missing (missing : list string) : list string :=
  fires (nonempty missing) (missing_line missing).

(** Rule 2: the skills line over the first three missing keywords. *)
Definition rule_skills (missing : list string) (low : bool) : list string :=
  fires (nonempty missing && low) (skills_line missing).

(** Rule 3: the fixed keyword triggers. *)
Definition rule_keywords (missing : list string) : list string :=
  fires (mem "python" missing) python_line
  ++ fires (mem "cad" missing) cad_line
  ++ fires (mem "data" missing) data_line.

(** Rule 4: the substring triggers on the lower-cased job description. *)
Definition rule_job_type (job_desc : string) : list string :=
  fires (contains "intern" (str_lower job_desc)) intern_line
  ++ fires (contains "design" (str_lower job_desc)) design_line
  ++ fires (contains "analysis" (str_lower job_desc)) analysis_line.

Definition rule_chain (missing : list string) (job_desc : string) (low : bool)
    : list string :=
  rule_missing missing ++ rule_skills missing low ++ rule_keywords missing
  ++ rule_job_type job_desc.

(** The chain fails when the comparison [skill_score < 60] is reached with a
    value that is not a number. *)
Definition chain_fails (missing : list string) (skill_score : pyval) : bool :=
  nonempty missing && negb (is_number skill_score).

(** ** Reference description of the gap analysis *)

Definition count_ge (x y : string * nat) : Prop := snd y <= snd x.

(** [job_words - resume_words - common_words] *)
Definition missing_set (resume_text job_desc : string) : gset string :=
  list_to_set (get_keywords job_desc) ∖ list_to_set (get_keywords resume_text)
  ∖ common_words.

(** The missing keywords with their counts, ranked and cut to five. *)
Definition ranked (set_iter : gset string -> list string)
    (resume_text job_desc : string) : list (string * nat) :=
  take 5 (sorted_desc
            (map (fun word => (word, Counter (get_keywords job_desc) !!! word))
                 (set_iter (missing_set resume_text job_desc)))).

(** The keywords among the maximal runs of word characters of [s]. *)
Definition kw_runs (s : string) : list string :=
  List.filter is_keyword (runs Char.is_word s).

(** The squared Euclidean norm of a row. *)
Definition sum_sq (feats : list string) (x : string -> R) : R :=
  Sklearn.sum_over feats (fun t => x t * x t)%R.

(** ** PDF text extractor *)

(** [x or ""] for [x] a string or [None] *)
Definition or_empty (x : option string) : string :=
  match x with
  | Some s => if is_empty s then "" else s
  | None => ""
  end.

(** The loop [for page in reader.pages: text += page.extract_text() or ""];
    a page is the outcome of its [extract_text()]. *)
Fixpoint read_pages (pages : list (result (option string))) (text : string)
    : py string :=
  match pages with
  | [] => ret text
  | page :: pages' =>
      do extracted <- ([], page) then
      read_pages pages' (text ++ or_empty extracted)
  end.

(** [extract_text_from_pdf]; [reader] is the outcome of [PyPDF2.PdfReader(file)],
    the pages of the file or the exception raised on opening it. *)
Definition extract_text_from_pdf (reader : result (list (result (option string))))
    : py string :=
  try_except
    (do pages <- ([], reader) then
     let text := "" in
     read_pages pages text)
    (fun e =>
       run emit (StError ("Error reading PDF: " ++ exn_msg e)) then
       ret "").

(** ** Main application: the job descriptions that are analysed *)

(** [[desc for desc in [job_desc1, job_desc2, job_desc3] if desc.strip() != ""]] *)
Definition job_descriptions (job_desc1 job_desc2 job_desc3 : string) : list string :=
  List.filter (fun desc => negb (String.eqb (strip desc) ""))
              [job_desc1; job_desc2; job_desc3].

(** ** Reference description of single-spaced text *)

(** No whitespace character but the space, and no two spaces in a row;
    [after_space] tells that the previous character was a space. *)
Fixpoint single_spaced (after_space : bool) (s : string) : bool :=
  match s with
  | EmptyString => true
  | String c s' =>
      if Char.is_space c then
        Ascii.eqb c " " && negb after_space && single_spaced true s'
      else single_spaced false s'
  end.

(** [pre ++ w ++ post]: [w] occurs in the text. *)
Definition occurs_in (w s : string) : Prop :=
  exists pre post : string, s = (pre ++ w ++ post)%string.

(** * Properties *)

(** ** Characters *)

Ltac by_cases_on_char c :=
  revert c; intros [[] [] [] [] [] [] [] []];
  vm_compute; try reflexivity; try discriminate; auto.

Lemma space_not_word c : Char.is_space c = true -> Char.is_word c = false.
Proof. by_cases_on_char c. Qed.

Lemma az_is_word c : Char.is_az c = true -> Char.is_word c = true.
Proof. by_cases_on_char c. Qed.

Lemma lower_idem c : Char.lower (Char.lower c) = Char.lower c.
Proof. by_cases_on_char c. Qed.

Lemma lower_space c : Char.is_space (Char.lower c) = Char.is_space c.
Proof. by_cases_on_char c. Qed.

Lemma lower_of_space c : Char.is_space c = true -> Char.lower c = c.
Proof. by_cases_on_char c. Qed.

Lemma space_char_is_space : Char.is_space " " = true.
Proof. reflexivity. Qed.

Lemma space_char_lower : Char.lower " " = " "%char.
Proof. reflexivity. Qed.

(** ** The matcher on the patterns of the program *)

Lemma rep_unconstrained cls min prev s :
  Re.rep cls min (Re.match_here []) prev s =
  if min <=? String.length (take_while cls s) then Some (take_while cls s) else None.
Proof.
  revert min prev. induction s as [|c s IH]; intros min prev; simpl.
  - destruct min; reflexivity.
  - destruct (cls c) eqn:Hc; simpl.
    + rewrite IH. destruct min as [|min]; simpl; [reflexivity|].
      destruct (min <=? String.length (take_while cls s)); reflexivity.
    + destruct min; reflexivity.
Qed.

Lemma match_ws prev s :
  Re.match_here ws_pattern prev s =
  match take_while Char.is_space s with
  | EmptyString => None
  | w => Some w
  end.
Proof.
  unfold ws_pattern. simpl Re.match_here. rewrite rep_unconstrained.
  destruct (take_while Char.is_space s); reflexivity.
Qed.

Lemma sub_ws_squeeze s : forall prev,
  Re.sub_from ws_pattern " " prev 0 s = squeeze false s /\
  Re.sub_from ws_pattern " " prev (String.length (take_while Char.is_space s)) s
    = squeeze true s.
Proof.
  induction s as [|c s IH]; intros prev.
  - split; reflexivity.
  - assert (H0 : Re.sub_from ws_pattern " " prev 0 (String c s) = squeeze false (String c s)).
    { cbn [Re.sub_from]. rewrite match_ws. cbn [take_while squeeze].
      destruct (Char.is_space c) eqn:Hc.
      - cbn [String.length Nat.pred]. destruct (IH (Some c)) as [_ ->]. reflexivity.
      - destruct (IH (Some c)) as [-> _]. reflexivity. }
    split; [exact H0|].
    cbn [take_while]. destruct (Char.is_space c) eqn:Hc.
    + cbn [String.length Re.sub_from squeeze]. rewrite Hc.
      destruct (IH (Some c)) as [_ ->]. reflexivity.
    + cbn [String.length]. rewrite H0. cbn [squeeze]. rewrite Hc. reflexivity.
Qed.

Lemma sub_ws_is_squeeze s : Re.sub ws_pattern " " s = squeeze false s.
Proof. unfold Re.sub. apply sub_ws_squeeze. Qed.

Lemma squeeze_lower b s : squeeze b (str_lower s) = str_lower (squeeze b s).
Proof.
  revert b. induction s as [|c s IH]; intros b; [reflexivity|].
  cbn [str_lower map_str squeeze]. rewrite lower_space.
  destruct (Char.is_space c) eqn:Hc.
  - destruct b; cbn [map_str]; fold (str_lower s); rewrite IH; reflexivity.
  - cbn [map_str]. fold (str_lower s). rewrite IH. reflexivity.
Qed.

Lemma squeeze_squeeze s :
  squeeze false (squeeze false s) = squeeze false s /\
  squeeze true (squeeze true s) = squeeze true s.
Proof.
  induction s as [|c s [IH1 IH2]]; [split; reflexivity|].
  cbn [squeeze]. destruct (Char.is_space c) eqn:Hc.
  - split; [|exact IH2]. cbn [squeeze]. rewrite space_char_is_space, IH2. reflexivity.
  - cbn [squeeze]. rewrite Hc, IH1. split; reflexivity.
Qed.

Lemma str_lower_idem s : str_lower (str_lower s) = str_lower s.
Proof.
  induction s as [|c s IH]; [reflexivity|].
  cbn [str_lower map_str]. rewrite lower_idem. f_equal. exact IH.
Qed.

Lemma clean_text_squeeze text : clean_text text = str_lower (squeeze false text).
Proof. unfold clean_text. rewrite sub_ws_is_squeeze. reflexivity. Qed.

(** *** Runs of a character class *)

Lemma runs_cons p c s :
  p c = true ->
  runs p (String c s) = String c (take_while p s) :: runs p (drop_while p s).
Proof.
  revert c. induction s as [|c' s IH]; intros c Hc.
  - simpl. rewrite Hc. reflexivity.
  - change (runs p (String c (String c' s)))
      with (if p c then
              if p c' then cons_head c (runs p (String c' s))
              else String c EmptyString :: runs p (String c' s)
            else runs p (String c' s)).
    rewrite Hc. cbn [take_while drop_while].
    destruct (p c') eqn:Hc'; [|reflexivity].
    rewrite (IH c' Hc'). reflexivity.
Qed.

Lemma runs_skip p c s : p c = false -> runs p (String c s) = runs p s.
Proof. intros Hc. simpl. rewrite Hc. reflexivity. Qed.

Lemma drop_while_starts p s : starts_with p (drop_while p s) = false.
Proof.
  induction s as [|c s IH]; [reflexivity|].
  simpl. destruct (p c) eqn:Hc; [exact IH|]. simpl. exact Hc.
Qed.

Lemma all_chars_take_while p s : all_chars p (take_while p s) = true.
Proof.
  induction s as [|c s IH]; [reflexivity|].
  simpl. destruct (p c) eqn:Hc; [|reflexivity]. simpl. rewrite Hc. exact IH.
Qed.

(** The [a-z] prefix of [s] is its whole word prefix exactly when no word
    character follows it. *)
Lemma az_prefix_word_prefix s :
  Re.word_at (drop_while Char.is_az s) = false ->
  take_while Char.is_word s = take_while Char.is_az s /\
  drop_while Char.is_word s = drop_while Char.is_az s.
Proof.
  induction s as [|c s IH]; [split; reflexivity|].
  cbn [take_while drop_while]. destruct (Char.is_az c) eqn:Hc.
  - rewrite (az_is_word _ Hc). intros H. destruct (IH H) as [-> ->]. split; reflexivity.
  - cbn [Re.word_at]. intros ->. split; reflexivity.
Qed.

Lemma az_prefix_followed_by_word s :
  Re.word_at (drop_while Char.is_az s) = true ->
  all_chars Char.is_az (take_while Char.is_word s) = false.
Proof.
  induction s as [|c s IH]; [discriminate|].
  cbn [take_while drop_while]. destruct (Char.is_az c) eqn:Hc.
  - rewrite (az_is_word _ Hc). intros H. cbn [all_chars]. rewrite Hc, (IH H). reflexivity.
  - cbn [Re.word_at]. intros ->. cbn [all_chars]. rewrite Hc. reflexivity.
Qed.

(** *** The keyword pattern *)

Lemma boundary_after_word prev s :
  Re.word_before prev = true -> Re.at_boundary prev s = negb (Re.word_at s).
Proof. unfold Re.at_boundary. intros ->. reflexivity. Qed.

Lemma boundary_after_nonword prev s :
  Re.word_before prev = false -> Re.at_boundary prev s = Re.word_at s.
Proof. unfold Re.at_boundary. intros ->. reflexivity. Qed.

(** Inside a word, [cls{min,}\b] (for a class of word characters) matches
    the whole [cls] prefix or nothing: giving a character back never helps,
    because it leaves a word character on both sides. *)
Lemma rep_then_boundary cls min c0 s :
  (forall c, cls c = true -> Char.is_word c = true) ->
  Char.is_word c0 = true ->
  Re.rep cls min (Re.match_here [Re.WordB]) (Some c0) s =
  if (min <=? String.length (take_while cls s)) && negb (Re.word_at (drop_while cls s))
  then Some (take_while cls s) else None.
Proof.
  intros Hcls. revert min c0. induction s as [|c s IH]; intros min c0 Hc0.
  - destruct min; [|reflexivity]. cbn [Re.rep Re.match_here].
    rewrite boundary_after_word by exact Hc0. reflexivity.
  - cbn [Re.rep take_while drop_while]. destruct (cls c) eqn:Hc.
    + rewrite (IH _ _ (Hcls _ Hc)). cbn [String.length].
      replace (min <=? S (String.length (take_while cls s)))
        with (Nat.pred min <=? String.length (take_while cls s))
        by (destruct min; reflexivity).
      destruct ((Nat.pred min <=? String.length (take_while cls s))
                && negb (Re.word_at (drop_while cls s))); [reflexivity|].
      destruct min; [|reflexivity]. cbn [Re.match_here].
      rewrite boundary_after_word by exact Hc0. cbn [Re.word_at].
      rewrite (Hcls _ Hc). reflexivity.
    + cbn [String.length Re.word_at]. destruct min; [|reflexivity].
      cbn [Re.match_here Nat.leb andb].
      rewrite boundary_after_word by exact Hc0. cbn [Re.word_at].
      destruct (Char.is_word c); reflexivity.
Qed.

Lemma match_kw_no_boundary prev s :
  Re.at_boundary prev s = false -> Re.match_here kw_pattern prev s = None.
Proof. intros H. cbn [kw_pattern Re.match_here]. rewrite H. reflexivity. Qed.

Lemma match_kw_not_az prev s :
  starts_with Char.is_az s = false -> Re.match_here kw_pattern prev s = None.
Proof.
  intros H. cbn [kw_pattern Re.match_here].
  destruct (Re.at_boundary prev s); [|reflexivity].
  destruct s as [|c s]; [reflexivity|]. cbn in H. cbn [Re.rep]. rewrite H. reflexivity.
Qed.

Lemma match_kw_az prev c s :
  Re.word_before prev = false -> Char.is_az c = true ->
  Re.match_here kw_pattern prev (String c s) =
  if (2 <=? String.length (take_while Char.is_az s))
     && negb (Re.word_at (drop_while Char.is_az s))
  then Some (String c (take_while Char.is_az s)) else None.
Proof.
  intros Hp Hc. cbn [kw_pattern Re.match_here].
  rewrite boundary_after_nonword by exact Hp. cbn [Re.word_at].
  rewrite (az_is_word _ Hc). cbn [Re.rep]. rewrite Hc. cbn [Nat.pred].
  rewrite (rep_then_boundary _ _ _ _ az_is_word (az_is_word _ Hc)).
  destruct ((2 <=? String.length (take_while Char.is_az s))
            && negb (Re.word_at (drop_while Char.is_az s))); reflexivity.
Qed.

Lemma is_keyword_run c s :
  Char.is_az c = true ->
  is_keyword (String c (take_while Char.is_word s)) =
  (2 <=? String.length (take_while Char.is_az s))
  && negb (Re.word_at (drop_while Char.is_az s)).
Proof.
  intros Hc. unfold is_keyword. cbn [String.length all_chars]. rewrite Hc.
  destruct (Re.word_at (drop_while Char.is_az s)) eqn:Hw.
  - rewrite (az_prefix_followed_by_word _ Hw). rewrite !andb_false_r. reflexivity.
  - destruct (az_prefix_word_prefix _ Hw) as [-> _].
    rewrite all_chars_take_while. rewrite !andb_true_r. reflexivity.
Qed.

Lemma findall_kw_runs s : forall prev,
  (Re.word_before prev = false ->
     Re.findall_from kw_pattern prev 0 s = kw_runs s) /\
  (Re.word_before prev = true ->
     Re.findall_from kw_pattern prev 0 s = kw_runs (drop_while Char.is_word s)) /\
  (Re.word_before prev = true -> Re.word_at (drop_while Char.is_az s) = false ->
     Re.findall_from kw_pattern prev (String.length (take_while Char.is_az s)) s
     = kw_runs (drop_while Char.is_word s)).
Proof.
  induction s as [|c s IH]; intros prev.
  - assert (H : Re.findall_from kw_pattern prev 0 "" = []).
    { cbn. destruct (Re.at_boundary prev ""); reflexivity. }
    repeat split; intros; exact H.
  - assert (HB : Re.word_before prev = true ->
       Re.findall_from kw_pattern prev 0 (String c s)
       = kw_runs (drop_while Char.is_word (String c s))).
    { intros Hp. cbn [Re.findall_from drop_while].
      destruct (Char.is_word c) eqn:Hc.
      - rewrite match_kw_no_boundary
          by (rewrite boundary_after_word by exact Hp; cbn [Re.word_at];
              rewrite Hc; reflexivity).
        apply (IH (Some c)). exact Hc.
      - rewrite match_kw_not_az.
        2:{ cbn. destruct (Char.is_az c) eqn:Ha; [|reflexivity].
            rewrite (az_is_word _ Ha) in Hc. discriminate. }
        rewrite (proj1 (IH (Some c)) Hc).
        unfold kw_runs. rewrite runs_skip by exact Hc. reflexivity. }
    split; [|split; [exact HB|]].
    + intros Hp. cbn [Re.findall_from].
      destruct (Char.is_word c) eqn:Hc.
      * unfold kw_runs at 1. rewrite runs_cons by exact Hc. cbn [List.filter].
        destruct (Char.is_az c) eqn:Ha.
        -- rewrite (match_kw_az _ _ _ Hp Ha), (is_keyword_run _ _ Ha).
           destruct (2 <=? String.length (take_while Char.is_az s)) eqn:Hlen;
             cbn [andb]; [|apply (IH (Some c)); exact Hc].
           destruct (Re.word_at (drop_while Char.is_az s)) eqn:Hw;
             cbn [negb]; [apply (IH (Some c)); exact Hc|].
           cbn [String.length Nat.pred].
           destruct (az_prefix_word_prefix _ Hw) as [-> _].
           f_equal. apply (IH (Some c)); [exact Hc|reflexivity].
        -- rewrite match_kw_not_az by (cbn; exact Ha).
           unfold is_keyword. cbn [all_chars]. rewrite Ha, andb_false_r.
           apply (IH (Some c)). exact Hc.
      * rewrite match_kw_no_boundary
          by (rewrite boundary_after_nonword by exact Hp; cbn [Re.word_at];
              exact Hc).
        rewrite (proj1 (IH (Some c)) Hc).
        unfold kw_runs. rewrite runs_skip by exact Hc. reflexivity.
    + intros Hp. cbn [take_while drop_while]. destruct (Char.is_az c) eqn:Ha.
      * intros Hw. cbn [String.length Re.findall_from].
        rewrite (az_is_word _ Ha). apply (IH (Some c)); [|exact Hw].
        cbn. apply az_is_word, Ha.
      * intros _. cbn [String.length]. apply HB, Hp.
Qed.

Lemma get_keywords_runs text : get_keywords text = word_runs_kw text.
Proof.
  unfold get_keywords, word_runs_kw, Re.findall.
  apply (findall_kw_runs (str_lower text) None). reflexivity.
Qed.

Lemma is_keyword_spec w :
  is_keyword w = true -> 3 <= String.length w /\ all_chars Char.is_az w = true.
Proof.
  unfold is_keyword. intros H. apply andb_prop in H as [H1 H2].
  split; [apply Nat.leb_le, H1|exact H2].
Qed.

Lemma squeeze_starts_word s :
  starts_with Char.is_word (squeeze false s) = starts_with Char.is_word s.
Proof.
  destruct s as [|c s]; [reflexivity|]. cbn [squeeze].
  destruct (Char.is_space c) eqn:Hc; [|reflexivity].
  cbn. rewrite (space_not_word _ Hc). reflexivity.
Qed.

Lemma runs_squeeze s : forall b,
  runs Char.is_word (squeeze b s) = runs Char.is_word s.
Proof.
  induction s as [|c s IH]; intros b; [reflexivity|].
  cbn [squeeze]. destruct (Char.is_space c) eqn:Hc.
  - rewrite (runs_skip _ c) by (apply space_not_word, Hc).
    destruct b; [apply IH|].
    rewrite runs_skip by reflexivity. apply IH.
  - cbn [runs]. rewrite squeeze_starts_word, IH. reflexivity.
Qed.

(** ** Text normalizer: the claims *)

(** C8: [clean_text] replaces every maximal run of whitespace by one space and
    lower-cases the result, and it is idempotent:
    [clean_text (clean_text x) = clean_text x]. *)
Theorem clean_text_idempotent (x : string) :
  clean_text x = str_lower (squeeze false x) /\
  clean_text (clean_text x) = clean_text x.
Proof.
  split; [apply clean_text_squeeze|].
  rewrite !clean_text_squeeze.
  rewrite <- squeeze_lower, str_lower_idem, squeeze_lower.
  destruct (squeeze_squeeze x) as [-> _]. reflexivity.
Qed.

(** C3, as stated, fails: in ["abc1"] the run ["abc"] is a maximal run of
    three lower-case letters between non-alphabetic neighbours, yet
    [get_keywords] returns nothing, because the digit is a word character and
    [\b] does not hold before it. *)
Lemma get_keywords_not_alpha_runs :
  get_keywords "abc1" = [] /\ alpha_runs_3 "abc1" = ["abc"] /\
  get_keywords "abc1" <> alpha_runs_3 "abc1".
Proof. vm_compute. repeat split; discriminate. Qed.

(** C3, amended: [get_keywords] returns, left to right and with duplicates,
    exactly the maximal runs of word characters (letters, digits, underscore)
    of the lower-cased text that consist of three or more characters, all in
    [a-z]; so every token has at least three characters and only [a-z]
    characters. *)
Theorem get_keywords_word_runs (text : string) :
  get_keywords text = List.filter is_keyword (runs Char.is_word (str_lower text)) /\
  Forall (fun w => 3 <= String.length w /\ all_chars Char.is_az w = true)
         (get_keywords text).
Proof.
  split; [apply get_keywords_runs|].
  rewrite get_keywords_runs. unfold word_runs_kw.
  apply List.Forall_forall. intros w Hw.
  apply List.filter_In in Hw as [_ Hw]. apply is_keyword_spec, Hw.
Qed.

(** C10: keyword extraction does not see normalization:
    [get_keywords (clean_text x) = get_keywords x]. *)
Theorem get_keywords_clean_text (x : string) :
  get_keywords (clean_text x) = get_keywords x.
Proof.
  rewrite !get_keywords_runs. unfold word_runs_kw.
  rewrite clean_text_squeeze, str_lower_idem, <- squeeze_lower, runs_squeeze.
  reflexivity.
Qed.

(** ** Gap analyzer *)

Lemma Counter_from (l : list string) : forall (m : gmap string nat) (w : string),
  foldl (fun m w => <[w := S (m !!! w)]> m) m l !!! w
  = (m !!! w) + count_occ string_dec l w.
Proof.
  induction l as [|x l IH]; intros m w; cbn [foldl count_occ]; [lia|].
  rewrite IH. destruct (string_dec x w) as [->|Hne].
  - rewrite lookup_total_insert_eq. lia.
  - rewrite lookup_total_insert_ne by exact Hne. reflexivity.
Qed.

Lemma Counter_count l w : Counter l !!! w = count_occ string_dec l w.
Proof. unfold Counter. rewrite Counter_from, lookup_total_empty. reflexivity. Qed.

Lemma insert_desc_perm x l : insert_desc x l ≡ₚ x :: l.
Proof.
  induction l as [|y l IH]; cbn [insert_desc]; [reflexivity|].
  destruct (snd x <? snd y); [|reflexivity].
  rewrite IH. apply perm_swap.
Qed.

Lemma insert_desc_sorted x l :
  StronglySorted count_ge l -> StronglySorted count_ge (insert_desc x l).
Proof.
  induction 1 as [|y l Hs IH Hy]; cbn [insert_desc].
  - constructor; [constructor|constructor].
  - destruct (snd x <? snd y) eqn:Hlt.
    + constructor; [exact IH|].
      rewrite insert_desc_perm. constructor; [|exact Hy].
      apply Nat.ltb_lt in Hlt. unfold count_ge. lia.
    + apply Nat.ltb_ge in Hlt. constructor; [constructor; assumption|].
      constructor; [exact Hlt|].
      eapply List.Forall_impl; [|exact Hy]. unfold count_ge. intros a Ha. lia.
Qed.

Lemma sorted_desc_perm l : sorted_desc l ≡ₚ l.
Proof.
  induction l as [|x l IH]; cbn; [reflexivity|].
  fold (sorted_desc l). rewrite insert_desc_perm, IH. reflexivity.
Qed.

Lemma sorted_desc_sorted l : StronglySorted count_ge (sorted_desc l).
Proof.
  induction l as [|x l IH]; cbn; [constructor|].
  apply insert_desc_sorted, IH.
Qed.

Lemma StronglySorted_take {A} (R : A -> A -> Prop) n (l : list A) :
  StronglySorted R l -> StronglySorted R (take n l).
Proof.
  intros H. revert n. induction H as [|x l Hs IH Hx]; intros [|n]; cbn; try constructor.
  - apply IH.
  - apply Forall_take, Hx.
Qed.

Lemma StronglySorted_lookup {A} (R : A -> A -> Prop) (l : list A) i j a b :
  StronglySorted R l -> i < j -> l !! i = Some a -> l !! j = Some b -> R a b.
Proof.
  intros H. revert i j. induction H as [|x l Hs IH Hx]; intros i j Hij Hi Hj.
  - discriminate.
  - destruct j as [|j]; [lia|]. cbn in Hj. destruct i as [|i].
    + cbn in Hi. injection Hi as ->.
      rewrite List.Forall_forall in Hx. apply Hx.
      apply list_elem_of_In. eapply list_elem_of_lookup_2, Hj.
    + cbn in Hi. apply (IH i j); [lia|assumption..].
Qed.

Section GapAnalyzerFacts.

Variable set_iter : gset string -> list string.
Hypothesis set_iter_elements : forall X, set_iter X ≡ₚ elements X.

Lemma analyze_missing_ranked resume_text job_desc :
  analyze_missing set_iter resume_text job_desc
  = ret (map fst (ranked set_iter resume_text job_desc)).
Proof. reflexivity. Qed.

Lemma ranked_entries resume_text job_desc p :
  p ∈ ranked set_iter resume_text job_desc ->
  fst p ∈ missing_set resume_text job_desc /\
  snd p = count_occ string_dec (get_keywords job_desc) (fst p).
Proof.
  unfold ranked. intros Hp.
  apply (subseteq_take 5) in Hp. rewrite sorted_desc_perm in Hp.
  apply list_elem_of_fmap in Hp as (w & -> & Hw).
  rewrite set_iter_elements in Hw. apply elem_of_elements in Hw.
  split; [exact Hw|]. apply Counter_count.
Qed.

End GapAnalyzerFacts.

Lemma common_words_stopwords w : w ∈ common_words <-> w ∈ stopwords.
Proof. unfold common_words. rewrite elem_of_list_to_set. reflexivity. Qed.

(** C4: [analyze_missing] returns at most five entries; none is a stopword;
    each is a keyword of the job description and not of the résumé; and the
    entries come by descending number of occurrences in the job description. *)
Theorem analyze_missing_top5
    (set_iter : gset string -> list string)
    (set_iter_elements : forall X, set_iter X ≡ₚ elements X)
    (resume_text job_desc : string) :
  exists missing : list string,
    analyze_missing set_iter resume_text job_desc = ret missing /\
    length missing <= 5 /\
    (forall w, w ∈ missing ->
       (w ∉ stopwords) /\ (w ∈ get_keywords job_desc) /\ (w ∉ get_keywords resume_text)) /\
    (forall i j wi wj, i < j -> missing !! i = Some wi -> missing !! j = Some wj ->
       count_occ string_dec (get_keywords job_desc) wj
       <= count_occ string_dec (get_keywords job_desc) wi).
Proof.
  exists (map fst (ranked set_iter resume_text job_desc)).
  split; [apply analyze_missing_ranked|]. split; [|split].
  - rewrite length_map. unfold ranked. rewrite length_take. lia.
  - intros w Hw. apply list_elem_of_fmap in Hw as (p & -> & Hp).
    apply (ranked_entries _ set_iter_elements) in Hp as [Hp _].
    unfold missing_set in Hp. rewrite <- common_words_stopwords.
    apply elem_of_difference in Hp as [Hp Hcommon].
    apply elem_of_difference in Hp as [Hjob Hresume].
    rewrite elem_of_list_to_set in Hjob, Hresume. auto.
  - intros i j wi wj Hij Hi Hj.
    rewrite list_lookup_fmap in Hi, Hj.
    destruct (ranked set_iter resume_text job_desc !! i) as [pi|] eqn:Ei; [|discriminate].
    destruct (ranked set_iter resume_text job_desc !! j) as [pj|] eqn:Ej; [|discriminate].
    cbn in Hi, Hj. injection Hi as <-. injection Hj as <-.
    assert (Hs : count_ge pi pj).
    { eapply (StronglySorted_lookup count_ge _ i j); [|exact Hij|exact Ei|exact Ej].
      apply StronglySorted_take, sorted_desc_sorted. }
    apply list_elem_of_lookup_2 in Ei, Ej.
    apply (ranked_entries _ set_iter_elements) in Ei as [_ <-].
    apply (ranked_entries _ set_iter_elements) in Ej as [_ <-].
    exact Hs.
Qed.

Lemma elements_order X : elements X ≡ₚ elements (X : gset string).
Proof. reflexivity. Qed.

Lemma analyze_missing_top5_witness :
  exists missing : list string,
    analyze_missing elements "Experienced in Python and data analysis"
      "Looking for a Python intern with data and design skills" = ret missing /\
    length missing <= 5 /\
    (forall w, w ∈ missing ->
       (w ∉ stopwords)
       /\ (w ∈ get_keywords "Looking for a Python intern with data and design skills")
       /\ (w ∉ get_keywords "Experienced in Python and data analysis")) /\
    (forall i j wi wj, i < j -> missing !! i = Some wi -> missing !! j = Some wj ->
       count_occ string_dec
         (get_keywords "Looking for a Python intern with data and design skills") wj
       <= count_occ string_dec
         (get_keywords "Looking for a Python intern with data and design skills") wi).
Proof. exact (analyze_missing_top5 elements elements_order _ _). Defined.

Lemma analyze_missing_no_gap
    (set_iter : gset string -> list string)
    (set_iter_elements : forall X, set_iter X ≡ₚ elements X)
    (resume_text job_desc : string) :
  missing_set resume_text job_desc = ∅ ->
  analyze_missing set_iter resume_text job_desc = ret [].
Proof.
  intros Hempty. rewrite analyze_missing_ranked. unfold ranked. rewrite Hempty.
  pose proof (set_iter_elements ∅) as H. rewrite elements_empty in H.
  apply Permutation_nil_r in H. rewrite H. reflexivity.
Qed.

(** C6: when every keyword of the job description is a keyword of the
    résumé, [analyze_missing] returns the empty list. *)
Theorem analyze_missing_superset
    (set_iter : gset string -> list string)
    (set_iter_elements : forall X, set_iter X ≡ₚ elements X)
    (resume_text job_desc : string) :
  (list_to_set (get_keywords job_desc) : gset string)
    ⊆ list_to_set (get_keywords resume_text) ->
  analyze_missing set_iter resume_text job_desc = ret [].
Proof.
  intros Hsub. apply (analyze_missing_no_gap _ set_iter_elements).
  apply set_eq. intros w. unfold missing_set.
  rewrite !elem_of_difference, elem_of_empty. specialize (Hsub w). tauto.
Qed.

Lemma analyze_missing_superset_witness :
  analyze_missing elements "python, data; SQL" "Data + Python" = ret [].
Proof.
  apply (analyze_missing_superset elements elements_order).
  refine (bool_decide_unpack _ _). vm_compute. exact I.
Defined.

(** ** Suggestion generator *)

Lemma mem_nil w : mem w [] = false.
Proof. reflexivity. Qed.

Lemma generate_from_missing set_iter resume_text job_desc skill_score missing :
  analyze_missing set_iter resume_text job_desc = ret missing ->
  generate_tailored_suggestions set_iter resume_text job_desc skill_score
  = ret (if chain_fails missing skill_score then [fallback_line]
         else rule_chain missing job_desc (below_60 skill_score)).
Proof.
  intros Hm. unfold generate_tailored_suggestions. rewrite Hm.
  unfold rule_chain, rule_missing, rule_skills, rule_keywords, rule_job_type, chain_fails.
  destruct missing as [|w missing].
  - cbv [bind ret try_except nonempty andb].
    destruct (contains "intern" (str_lower job_desc)),
             (contains "design" (str_lower job_desc)),
             (contains "analysis" (str_lower job_desc)); reflexivity.
  - set (kws := w :: missing).
    assert (Hk : nonempty kws = true) by reflexivity.
    destruct skill_score as [x|z| |s];
      cbv [bind ret raise try_except lt_60 is_number below_60 negb andb];
      rewrite Hk; try reflexivity;
      [destruct (PrimFloat.ltb x 60)|destruct (z <? 60)%Z];
      destruct (mem "python" kws), (mem "cad" kws), (mem "data" kws),
               (contains "intern" (str_lower job_desc)),
               (contains "design" (str_lower job_desc)),
               (contains "analysis" (str_lower job_desc)); reflexivity.
Qed.

(** C5: [generate_tailored_suggestions] returns the lines of the rules that
    fire, in the fixed order (the missing-keywords line; the skills line when
    the score is below 60; the python, cad and data triggers; the intern,
    design and analysis triggers on the lower-cased job description); when the
    chain fails it returns the single fallback line; so the empty list is
    returned exactly when nothing failed and no rule fired. *)
Theorem generate_tailored_suggestions_rule_chain
    (set_iter : gset string -> list string)
    (resume_text job_desc : string) (skill_score : pyval) :
  exists missing out : list string,
    analyze_missing set_iter resume_text job_desc = ret missing /\
    generate_tailored_suggestions set_iter resume_text job_desc skill_score = ret out /\
    out = (if chain_fails missing skill_score then [fallback_line]
           else rule_missing missing
                ++ rule_skills missing (below_60 skill_score)
                ++ rule_keywords missing
                ++ rule_job_type job_desc) /\
    (out = [] <->
     chain_fails missing skill_score = false /\
     rule_chain missing job_desc (below_60 skill_score) = []).
Proof.
  eexists _, _. split; [apply analyze_missing_ranked|].
  split; [apply generate_from_missing, analyze_missing_ranked|].
  split; [reflexivity|].
  destruct (chain_fails _ skill_score); split.
  - discriminate.
  - intros [? _]. discriminate.
  - intros H. split; [reflexivity|exact H].
  - intros [_ H]. exact H.
Qed.

(** ** Similarity scorer *)

Lemma rstrip_empty r : is_empty (rstrip r) = all_chars Char.is_space r.
Proof.
  induction r as [|c r IH]; [reflexivity|].
  cbn [rstrip all_chars]. rewrite <- IH.
  destruct (Char.is_space c), (is_empty (rstrip r)); reflexivity.
Qed.

Lemma all_space_drop s :
  all_chars Char.is_space (drop_while Char.is_space s) = all_chars Char.is_space s.
Proof.
  induction s as [|c s IH]; [reflexivity|].
  cbn [drop_while all_chars]. destruct (Char.is_space c) eqn:Hc; [exact IH|].
  cbn [all_chars]. rewrite Hc. reflexivity.
Qed.

(** [not s.strip()] holds exactly for the texts made of whitespace only. *)
Lemma blank_all_space s : blank s = all_chars Char.is_space s.
Proof. unfold blank, strip, lstrip. rewrite rstrip_empty. apply all_space_drop. Qed.

Lemma all_space_lower s :
  all_chars Char.is_space (str_lower s) = all_chars Char.is_space s.
Proof.
  induction s as [|c s IH]; [reflexivity|].
  cbn [str_lower map_str all_chars]. rewrite lower_space. f_equal. exact IH.
Qed.

Lemma findall_terms_all_space s : forall prev,
  all_chars Char.is_space s = true -> Re.word_before prev = false ->
  Re.findall_from Sklearn.token_pattern prev 0 s = [].
Proof.
  induction s as [|c s IH]; intros prev Hs Hp.
  - cbn [Re.findall_from Sklearn.token_pattern Re.match_here].
    rewrite boundary_after_nonword by exact Hp. reflexivity.
  - cbn [all_chars] in Hs. apply andb_prop in Hs as [Hc Hs].
    cbn [Re.findall_from Sklearn.token_pattern Re.match_here].
    rewrite boundary_after_nonword by exact Hp. cbn [Re.word_at].
    rewrite (space_not_word _ Hc). apply IH; [exact Hs|].
    cbn. apply space_not_word, Hc.
Qed.

Lemma blank_no_terms t : blank t = true -> Sklearn.analyze t = [].
Proof.
  rewrite blank_all_space. intros H. unfold Sklearn.analyze, Re.findall.
  apply findall_terms_all_space; [|reflexivity]. rewrite all_space_lower. exact H.
Qed.

(** *** Sums, norms and the cosine *)

Section Vectors.

Local Open Scope R_scope.
Import Sklearn.

Lemma sum_over_cons t feats f :
  sum_over (t :: feats) f = f t + sum_over feats f.
Proof. reflexivity. Qed.

Lemma sum_over_ext feats f g :
  (forall t, f t = g t) -> sum_over feats f = sum_over feats g.
Proof.
  intros H. induction feats as [|t feats IH]; [reflexivity|].
  rewrite !sum_over_cons, H, IH. reflexivity.
Qed.

Lemma sum_over_nonneg feats f : (forall t, 0 <= f t) -> 0 <= sum_over feats f.
Proof.
  intros H. induction feats as [|t feats IH]; [cbn; lra|].
  rewrite sum_over_cons. specialize (H t). lra.
Qed.

Lemma sum_over_pos feats f t0 :
  (forall t, 0 <= f t) -> In t0 feats -> 0 < f t0 -> 0 < sum_over feats f.
Proof.
  intros H Hin Hpos. induction feats as [|t feats IH]; [destruct Hin|].
  rewrite sum_over_cons. pose proof (sum_over_nonneg feats f H) as Hrest.
  destruct Hin as [->|Hin]; [lra|].
  specialize (IH Hin). specialize (H t). lra.
Qed.

Lemma sum_over_div feats f c :
  sum_over feats (fun t => f t / c) = sum_over feats f / c.
Proof.
  induction feats as [|t feats IH]; [cbn; unfold Rdiv; ring|].
  rewrite !sum_over_cons, IH. unfold Rdiv. ring.
Qed.

Lemma sum_sq_nonneg feats x : 0 <= sum_sq feats x.
Proof. apply sum_over_nonneg. intros t. nra. Qed.

Lemma l2_normalize_nonneg feats x :
  (forall t, 0 <= x t) -> forall t, 0 <= l2_normalize feats x t.
Proof.
  intros H t. unfold l2_normalize.
  destruct (Req_dec_T _ 0) as [_|Hn]; [apply H|].
  pose proof (sqrt_pos (sum_over feats (fun t => x t * x t))) as Hs.
  apply Rmult_le_pos; [apply H|].
  apply Rlt_le, Rinv_0_lt_compat. lra.
Qed.

Lemma l2_normalize_unit feats x :
  0 < sum_sq feats x -> sum_sq feats (l2_normalize feats x) = 1.
Proof.
  intros Hpos. unfold l2_normalize. fold (sum_sq feats x).
  pose proof (sqrt_lt_R0 _ Hpos) as Hs.
  destruct (Req_dec_T (R_sqrt.sqrt (sum_sq feats x)) 0) as [E|_]; [lra|].
  unfold sum_sq at 1.
  rewrite (sum_over_ext feats _
             (fun t => x t * x t / (R_sqrt.sqrt (sum_sq feats x) * R_sqrt.sqrt (sum_sq feats x))))
    by (intros t; field; lra).
  rewrite sum_over_div. fold (sum_sq feats x).
  rewrite sqrt_sqrt by lra. field. lra.
Qed.

Lemma l2_normalize_of_unit feats x :
  sum_sq feats x = 1 -> forall t, l2_normalize feats x t = x t.
Proof.
  intros H t. unfold l2_normalize. fold (sum_sq feats x). rewrite H, sqrt_1.
  destruct (Req_dec_T 1 0); [reflexivity|]. field.
Qed.

Lemma cosine_similarity_nonneg feats x y :
  (forall t, 0 <= x t) -> (forall t, 0 <= y t) -> 0 <= cosine_similarity feats x y.
Proof.
  intros Hx Hy. apply sum_over_nonneg. intros t.
  apply Rmult_le_pos; apply l2_normalize_nonneg; assumption.
Qed.

Lemma cosine_similarity_self feats x :
  0 < sum_sq feats x ->
  cosine_similarity feats (l2_normalize feats x) (l2_normalize feats x) = 1.
Proof.
  intros Hpos. pose proof (l2_normalize_unit _ _ Hpos) as Hu.
  unfold cosine_similarity.
  rewrite (sum_over_ext feats _
             (fun t => l2_normalize feats x t * l2_normalize feats x t))
    by (intros t; rewrite (l2_normalize_of_unit _ _ Hu); reflexivity).
  exact Hu.
Qed.

(** *** The tf-idf weights *)

Lemma df_le t docs : (df t docs <= length docs)%nat.
Proof. unfold df. apply List.filter_length_le. Qed.

Lemma idf_ge_1 t docs : 1 <= idf t docs.
Proof.
  unfold idf. pose proof (df_le t docs) as Hle. apply le_INR in Hle.
  pose proof (pos_INR (df t docs)) as Hdf.
  set (n := INR (length docs)) in *. set (d := INR (df t docs)) in *.
  assert (Hq : 1 <= (1 + n) / (1 + d)).
  { apply (Rmult_le_reg_r (1 + d)); [lra|]. field_simplify; lra. }
  destruct (Req_dec_T ((1 + n) / (1 + d)) 1) as [->|Hne].
  - rewrite ln_1. lra.
  - assert (0 < ln ((1 + n) / (1 + d))); [|lra].
    rewrite <- ln_1. apply ln_increasing; lra.
Qed.

Lemma weight_nonneg docs d t : 0 <= weight docs d t.
Proof.
  unfold weight. apply Rmult_le_pos; [apply pos_INR|].
  pose proof (idf_ge_1 t docs). lra.
Qed.

Lemma weight_pos docs d t : In t (analyze d) -> 0 < weight docs d t.
Proof.
  intros Hin. unfold weight. apply Rmult_lt_0_compat.
  - apply lt_0_INR. unfold tf. apply (count_occ_In string_dec). exact Hin.
  - pose proof (idf_ge_1 t docs). lra.
Qed.

Lemma vocabulary_pair a b :
  vocabulary [a; b] = list_to_set (analyze a) ∪ list_to_set (analyze b).
Proof. cbn. apply set_eq. intros t. rewrite !elem_of_union, elem_of_empty. tauto. Qed.

Lemma tfidf_cosine_nonneg a b c : tfidf_cosine a b = Ok c -> 0 <= c.
Proof.
  unfold tfidf_cosine, fit_transform.
  destruct (decide (vocabulary [a; b] = ∅)); [discriminate|].
  cbn [features rows row map nth]. intros [= <-].
  apply cosine_similarity_nonneg; intros t; apply l2_normalize_nonneg;
    intros u; apply weight_nonneg.
Qed.

Lemma tfidf_cosine_self t : analyze t <> [] -> tfidf_cosine t t = Ok 1.
Proof.
  intros Hne. unfold tfidf_cosine, fit_transform.
  destruct (analyze t) as [|w ws] eqn:Ht; [congruence|].
  assert (Hw : w ∈ vocabulary [t; t]).
  { rewrite vocabulary_pair, Ht. apply elem_of_union_l, elem_of_list_to_set. left. }
  destruct (decide (vocabulary [t; t] = ∅)) as [E|_].
  { rewrite E in Hw. apply elem_of_empty in Hw. destruct Hw. }
  cbn [features rows row map nth]. f_equal.
  apply cosine_similarity_self.
  apply (sum_over_pos _ _ w).
  - intros u. pose proof (weight_nonneg [t; t] t u). nra.
  - apply list_elem_of_In, elem_of_elements, Hw.
  - assert (0 < weight [t; t] t w); [|nra].
    apply weight_pos. rewrite Ht. left. reflexivity.
Qed.

End Vectors.

(** *** [calculate_similarity], case by case *)

Section ScorerFacts.

Variable lib : string -> string -> result R.

Lemma calculate_similarity_blank a b :
  blank a || blank b = true -> calculate_similarity lib a b = ret 0%R.
Proof. intros H. unfold calculate_similarity. rewrite H. reflexivity. Qed.

Lemma calculate_similarity_ok a b c :
  blank a || blank b = false -> lib a b = Ok c ->
  calculate_similarity lib a b
  = ([FitTransform [a; b]], Ok (py_min (c * 100 * 1.5) 95)).
Proof.
  intros H Hc. unfold calculate_similarity, vectorize. rewrite H.
  cbv [bind emit ret try_except]. rewrite Hc. reflexivity.
Qed.

Lemma calculate_similarity_raised a b e :
  blank a || blank b = false -> lib a b = Raised e ->
  calculate_similarity lib a b
  = ([FitTransform [a; b]; StError ("Error calculating similarity: " ++ exn_msg e)],
     Ok 0%R).
Proof.
  intros H He. unfold calculate_similarity, vectorize. rewrite H.
  cbv [bind emit ret try_except]. rewrite He. reflexivity.
Qed.

End ScorerFacts.

Lemma py_min_cap x : (0 <= x)%R -> (0 <= py_min x 95 <= 95)%R.
Proof. intros H. unfold py_min. destruct (Rlt_dec 95 x); lra. Qed.

(** C1: the score returned by [calculate_similarity] lies in [0, 95], for a
    vectorizer whose cosine is never negative. *)
Theorem calculate_similarity_range
    (lib : string -> string -> result R)
    (lib_nonneg : forall a b c, lib a b = Ok c -> (0 <= c)%R)
    (resume job_desc : string) :
  exists evs score,
    calculate_similarity lib resume job_desc = (evs, Ok score) /\
    (0 <= score <= 95)%R.
Proof.
  destruct (blank resume || blank job_desc) eqn:Hb.
  - eexists _, _. split; [apply calculate_similarity_blank, Hb|]. lra.
  - destruct (lib resume job_desc) as [c|e] eqn:Hc.
    + eexists _, _. split; [apply (calculate_similarity_ok _ _ _ _ Hb Hc)|].
      apply py_min_cap. specialize (lib_nonneg _ _ _ Hc). lra.
    + eexists _, _. split; [apply (calculate_similarity_raised _ _ _ _ Hb Hc)|]. lra.
Qed.

Lemma calculate_similarity_range_witness :
  exists evs score,
    calculate_similarity Sklearn.tfidf_cosine
      "Experienced in Python and data analysis"
      "Looking for a Python intern with data and design skills" = (evs, Ok score) /\
    (0 <= score <= 95)%R.
Proof. exact (calculate_similarity_range Sklearn.tfidf_cosine tfidf_cosine_nonneg _ _). Defined.

(** C2: when either text is empty after trimming, [calculate_similarity]
    returns 0 and the vectorizer is not called; when the vectorizer raises,
    the exception is caught, an error is shown and 0 is returned; in every
    case a score is returned and no exception leaves the function. *)
Theorem calculate_similarity_never_raises
    (lib : string -> string -> result R) (resume job_desc : string) :
  (blank resume = true \/ blank job_desc = true ->
     calculate_similarity lib resume job_desc = ([], Ok 0%R)) /\
  (forall e, blank resume = false -> blank job_desc = false ->
     lib resume job_desc = Raised e ->
     calculate_similarity lib resume job_desc
     = ([FitTransform [resume; job_desc];
         StError ("Error calculating similarity: " ++ exn_msg e)], Ok 0%R)) /\
  (exists evs score, calculate_similarity lib resume job_desc = (evs, Ok score)).
Proof.
  split; [|split].
  - intros H. apply calculate_similarity_blank.
    destruct H as [-> | ->]; [reflexivity|apply orb_true_r].
  - intros e Hr Hj He. apply calculate_similarity_raised; [|exact He].
    rewrite Hr, Hj. reflexivity.
  - destruct (blank resume || blank job_desc) eqn:Hb.
    + eexists _, _. apply calculate_similarity_blank, Hb.
    + destruct (lib resume job_desc) as [c|e] eqn:Hc.
      * eexists _, _. apply (calculate_similarity_ok _ _ _ _ Hb Hc).
      * eexists _, _. apply (calculate_similarity_raised _ _ _ _ Hb Hc).
Qed.

(** ** Identical texts *)

Lemma tfidf_cosine_no_terms t :
  Sklearn.analyze t = [] -> exists e, Sklearn.tfidf_cosine t t = Raised e.
Proof.
  intros Ht. unfold Sklearn.tfidf_cosine, Sklearn.fit_transform.
  destruct (decide (Sklearn.vocabulary [t; t] = ∅)) as [_|Hne]; [eexists; reflexivity|].
  exfalso. apply Hne. rewrite vocabulary_pair, Ht.
  apply set_eq. intros w. rewrite elem_of_union, elem_of_list_to_set, elem_of_empty.
  rewrite elem_of_nil. tauto.
Qed.

Lemma score_identical t :
  snd (calculate_similarity Sklearn.tfidf_cosine t t)
  = Ok (if nonempty (Sklearn.analyze t) then 95 else 0)%R.
Proof.
  destruct (blank t || blank t) eqn:Hb.
  - rewrite (calculate_similarity_blank _ _ _ Hb).
    rewrite orb_diag in Hb. rewrite (blank_no_terms _ Hb). reflexivity.
  - destruct (Sklearn.analyze t) as [|w ws] eqn:Ht.
    + destruct (tfidf_cosine_no_terms t Ht) as [e He].
      rewrite (calculate_similarity_raised _ _ _ _ Hb He). reflexivity.
    + assert (Hc : Sklearn.tfidf_cosine t t = Ok 1%R)
        by (apply tfidf_cosine_self; rewrite Ht; discriminate).
      rewrite (calculate_similarity_ok _ _ _ _ Hb Hc).
      cbn [snd nonempty]. f_equal. unfold py_min. destruct (Rlt_dec 95 _); lra.
Qed.

(** C9, as stated, fails: for the résumé and the job description both equal
    to ["intern"] no keyword is missing, yet the job-type trigger fires and the
    suggestion list is not empty. *)
Lemma identical_texts_suggestions_not_empty :
  analyze_missing elements "intern" "intern" = ret [] /\
  generate_tailored_suggestions elements "intern" "intern" (PyFloat 47.5)
  = ret [intern_line] /\
  generate_tailored_suggestions elements "intern" "intern" (PyFloat 47.5) <> ret [].
Proof. vm_compute. repeat split; discriminate. Qed.

(** C9, amended: for identical résumé and job-description texts no keyword
    is missing; the suggestions are exactly the job-type trigger lines
    (intern, design, analysis) that fire on the lower-cased text, whatever the
    skill score; and the score is 95 when the text has a term of two or more
    word characters, and 0 when it has none. *)
Theorem identical_texts_outcome
    (set_iter : gset string -> list string)
    (set_iter_elements : forall X, set_iter X ≡ₚ elements X)
    (t : string) (skill_score : pyval) :
  analyze_missing set_iter t t = ret [] /\
  generate_tailored_suggestions set_iter t t skill_score = ret (rule_job_type t) /\
  snd (calculate_similarity Sklearn.tfidf_cosine t t)
  = Ok (if nonempty (Sklearn.analyze t) then 95 else 0)%R.
Proof.
  assert (Hm : analyze_missing set_iter t t = ret []).
  { apply (analyze_missing_no_gap _ set_iter_elements).
    apply set_eq. intros w. unfold missing_set.
    rewrite !elem_of_difference, elem_of_empty. tauto. }
  split; [exact Hm|]. split; [|apply score_identical].
  rewrite (generate_from_missing _ _ _ _ _ Hm). reflexivity.
Qed.

Lemma identical_texts_outcome_witness :
  analyze_missing elements "Design intern" "Design intern" = ret [] /\
  generate_tailored_suggestions elements "Design intern" "Design intern" (PyFloat 47.5)
  = ret (rule_job_type "Design intern") /\
  snd (calculate_similarity Sklearn.tfidf_cosine "Design intern" "Design intern")
  = Ok (if nonempty (Sklearn.analyze "Design intern") then 95 else 0)%R.
Proof. exact (identical_texts_outcome elements elements_order "Design intern" (PyFloat 47.5)). Defined.

(** ** Worked examples *)

Example clean_text_example :
  clean_text ("  Hello" ++ String (ascii_of_nat 9) (String (ascii_of_nat 10) "WORLD  x "))
  = " hello world x ".
Proof. vm_compute. reflexivity. Qed.

Example get_keywords_example :
  get_keywords "Looking for a Python intern, with data; ab abc1 abc_d x-ray" =
  ["looking"; "for"; "python"; "intern"; "with"; "data"; "ray"].
Proof. vm_compute. reflexivity. Qed.

Example scenario_a_suggestions :
  exists missing out,
    generate_tailored_suggestions elements
      "Experienced in Python and data analysis"
      "Looking for a Python intern with data and design skills" (PyFloat 30)
    = ret out /\
    analyze_missing elements
      "Experienced in Python and data analysis"
      "Looking for a Python intern with data and design skills" = ret missing /\
    mem "design" missing = true /\ mem "intern" missing = true /\
    mem "python" missing = false /\ mem "data" missing = false /\
    mem intern_line out = true /\ mem design_line out = true.
Proof.
  eexists _, _. split; [vm_compute; reflexivity|]. split; [vm_compute; reflexivity|].
  repeat split.
Qed.

(** * Further properties *)

(** ** Text normalizer *)

Lemma single_spaced_squeeze s : forall b,
  single_spaced b (str_lower (squeeze b s)) = true.
Proof.
  induction s as [|c s IH]; intros b; [reflexivity|].
  cbn [squeeze]. destruct (Char.is_space c) eqn:Hc.
  - destruct b; [apply IH|].
    cbn [str_lower map_str single_spaced]. fold (str_lower (squeeze true s)).
    rewrite space_char_lower, space_char_is_space, IH. reflexivity.
  - cbn [str_lower map_str single_spaced]. fold (str_lower (squeeze false s)).
    rewrite lower_space, Hc. apply IH.
Qed.

(** X1: in the text returned by [clean_text] the only whitespace character is
    the space, and no two spaces are next to each other. *)
Theorem clean_text_single_spaced (text : string) :
  single_spaced false (clean_text text) = true.
Proof. rewrite clean_text_squeeze. apply single_spaced_squeeze. Qed.

Lemma all_space_squeeze s : forall b,
  all_chars Char.is_space (squeeze b s) = all_chars Char.is_space s.
Proof.
  induction s as [|c s IH]; intros b; [reflexivity|].
  cbn [squeeze all_chars]. destruct (Char.is_space c) eqn:Hc.
  - destruct b; [apply IH|]. cbn [all_chars]. rewrite space_char_is_space. apply IH.
  - cbn [all_chars]. rewrite Hc. reflexivity.
Qed.

Lemma blank_clean_text text : blank (clean_text text) = blank text.
Proof.
  rewrite !blank_all_space, clean_text_squeeze, all_space_lower.
  apply all_space_squeeze.
Qed.

(** X2: cleaning neither creates nor removes a blank text:
    [clean_text(text).strip()] is empty exactly when [text.strip()] is, and
    that is the case exactly when [text] has whitespace characters only. *)
Theorem clean_text_blank (text : string) :
  blank (clean_text text) = blank text /\
  blank text = all_chars Char.is_space text.
Proof. split; [apply blank_clean_text|apply blank_all_space]. Qed.

Lemma length_squeeze s : forall b, String.length (squeeze b s) <= String.length s.
Proof.
  induction s as [|c s IH]; intros b; [reflexivity|].
  pose proof (IH true) as Ht. pose proof (IH false) as Hf.
  cbn [squeeze]. destruct (Char.is_space c), b; cbn [String.length]; lia.
Qed.

Lemma squeeze_no_space s : forall b,
  all_chars (fun c => negb (Char.is_space c)) s = true -> squeeze b s = s.
Proof.
  induction s as [|c s IH]; intros b H; [reflexivity|].
  cbn [all_chars] in H. apply andb_prop in H as [Hc H].
  cbn [squeeze]. destruct (Char.is_space c); [discriminate|].
  rewrite (IH false H). reflexivity.
Qed.

(** X3: the whitespace-collapsing step of [clean_text],
    [re.sub(r'\s+', ' ', text)], never makes the text longer, and returns a
    text without whitespace as it is. *)
Theorem collapse_whitespace_length (text : string) :
  String.length (Re.sub ws_pattern " " text) <= String.length text /\
  (all_chars (fun c => negb (Char.is_space c)) text = true ->
   Re.sub ws_pattern " " text = text).
Proof.
  rewrite sub_ws_is_squeeze. split; [apply length_squeeze|apply squeeze_no_space].
Qed.

(** *** Keywords occur in the text *)

Lemma append_cons c (s t : string) : (String c s ++ t)%string = String c (s ++ t).
Proof. reflexivity. Qed.

Lemma append_assoc (s1 s2 s3 : string) :
  ((s1 ++ s2) ++ s3 = s1 ++ s2 ++ s3)%string.
Proof.
  induction s1 as [|c s1 IH]; [reflexivity|].
  rewrite !append_cons, IH. reflexivity.
Qed.

Lemma take_drop_while p s : (take_while p s ++ drop_while p s)%string = s.
Proof.
  induction s as [|c s IH]; [reflexivity|].
  cbn [take_while drop_while]. destruct (p c); [|reflexivity].
  rewrite append_cons, IH. reflexivity.
Qed.

Lemma prefix_append w post : String.prefix w (w ++ post)%string = true.
Proof.
  induction w as [|c w IH]; [destruct post; reflexivity|].
  rewrite append_cons. cbn [String.prefix].
  destruct (ascii_dec c c); [exact IH|congruence].
Qed.

Lemma contains_occurs w s : occurs_in w s -> contains w s = true.
Proof.
  intros (pre & post & ->). induction pre as [|c pre IH].
  - change ("" ++ w ++ post)%string with (w ++ post)%string.
    destruct (w ++ post)%string eqn:E;
      cbn [contains]; rewrite <- E, prefix_append; reflexivity.
  - rewrite append_cons. cbn [contains]. rewrite IH. apply orb_true_r.
Qed.

Lemma occurs_in_cons c w s : occurs_in w s -> occurs_in w (String c s).
Proof. intros (pre & post & ->). exists (String c pre), post. reflexivity. Qed.

Lemma runs_occur p s w : In w (runs p s) -> occurs_in w s.
Proof.
  revert w. induction s as [|c s IH]; intros w Hw; [destruct Hw|].
  destruct (p c) eqn:Hc.
  - assert (Hhead : forall l, runs p s = l -> starts_with p s = true ->
              exists w0 l', l = w0 :: l' /\ exists post, s = (w0 ++ post)%string).
    { intros l <- Hs. destruct s as [|c' s']; [discriminate|]. cbn in Hs.
      rewrite (runs_cons p c' s' Hs). eexists _, _. split; [reflexivity|].
      exists (drop_while p s'). rewrite append_cons, take_drop_while. reflexivity. }
    cbn [runs] in Hw. rewrite Hc in Hw.
    destruct (starts_with p s) eqn:Hs.
    + destruct (Hhead _ eq_refl eq_refl) as (w0 & l' & Hl & post & Hpost).
      rewrite Hl in Hw, IH. cbn [cons_head] in Hw.
      destruct Hw as [<-|Hw].
      * exists "", post. rewrite Hpost. reflexivity.
      * apply occurs_in_cons, IH. right. exact Hw.
    + destruct Hw as [<-|Hw].
      * exists "", s. reflexivity.
      * apply occurs_in_cons, IH, Hw.
  - rewrite runs_skip in Hw by exact Hc. apply occurs_in_cons, IH, Hw.
Qed.

Lemma get_keywords_occur text w :
  In w (get_keywords text) -> occurs_in w (str_lower text).
Proof.
  rewrite get_keywords_runs. unfold word_runs_kw. intros Hw.
  apply List.filter_In in Hw as [Hw _]. apply (runs_occur _ _ _ Hw).
Qed.

(** X4: every keyword returned by [get_keywords] occurs in the lower-cased
    text, so the test [keyword in text.lower()] succeeds for it. *)
Theorem get_keywords_substrings (text w : string) :
  In w (get_keywords text) ->
  occurs_in w (str_lower text) /\ contains w (str_lower text) = true.
Proof.
  intros Hw. pose proof (get_keywords_occur _ _ Hw) as Ho.
  split; [exact Ho|apply contains_occurs, Ho].
Qed.

Lemma get_keywords_substrings_witness :
  occurs_in "intern" (str_lower "Summer INTERN wanted") /\
  contains "intern" (str_lower "Summer INTERN wanted") = true.
Proof.
  apply (get_keywords_substrings "Summer INTERN wanted" "intern").
  vm_compute. right. left. reflexivity.
Defined.

(** ** Similarity scorer *)

(** X6: the early return is taken exactly when one of the two texts has
    whitespace characters only (the empty text included); in every other
    case the first thing the function does is call the vectorizer on the two
    texts, résumé first. *)
Theorem calculate_similarity_guard
    (lib : string -> string -> result R) (resume job_desc : string) :
  (all_chars Char.is_space resume = true \/ all_chars Char.is_space job_desc = true
   <-> fst (calculate_similarity lib resume job_desc) = []) /\
  (all_chars Char.is_space resume = false ->
   all_chars Char.is_space job_desc = false ->
   exists evs, fst (calculate_similarity lib resume job_desc)
               = FitTransform [resume; job_desc] :: evs).
Proof.
  rewrite <- !blank_all_space.
  destruct (blank resume) eqn:Hr; [|destruct (blank job_desc) eqn:Hj].
  - rewrite calculate_similarity_blank by (rewrite Hr; reflexivity).
    split; [|discriminate]. split; [reflexivity|]. left. reflexivity.
  - rewrite calculate_similarity_blank by (rewrite Hr, Hj; reflexivity).
    split; [|discriminate]. split; [reflexivity|]. right. reflexivity.
  - assert (Hb : blank resume || blank job_desc = false) by (rewrite Hr, Hj; reflexivity).
    destruct (lib resume job_desc) as [c|e] eqn:Hc.
    + rewrite (calculate_similarity_ok _ _ _ _ Hb Hc). cbn [fst].
      split; [|eexists; reflexivity].
      split; [intros [?|?]; discriminate|discriminate].
    + rewrite (calculate_similarity_raised _ _ _ _ Hb Hc). cbn [fst].
      split; [|eexists; reflexivity].
      split; [intros [?|?]; discriminate|discriminate].
Qed.

(** ** Gap analyzer *)

Lemma Counter_lookup_from (l : list string) : forall (m : gmap string nat) (w : string),
  foldl (fun m w => <[w := S (m !!! w)]> m) m l !! w
  = if count_occ string_dec l w =? 0 then m !! w
    else Some ((m !!! w) + count_occ string_dec l w).
Proof.
  induction l as [|x l IH]; intros m w; cbn [foldl count_occ]; [reflexivity|].
  rewrite IH. destruct (string_dec x w) as [->|Hne].
  - rewrite lookup_total_insert_eq, lookup_insert_eq.
    destruct (count_occ string_dec l w); cbn [Nat.eqb]; f_equal; lia.
  - rewrite lookup_total_insert_ne, lookup_insert_ne by exact Hne. reflexivity.
Qed.

(** X7: [Counter(l)] has exactly the elements of [l] as keys, each with its
    number of occurrences (at least 1); reading any other key gives the
    default 0. *)
Theorem Counter_lookup (l : list string) (w : string) :
  (In w l -> Counter l !! w = Some (count_occ string_dec l w)
             /\ 1 <= count_occ string_dec l w) /\
  (~ In w l -> Counter l !! w = None /\ Counter l !!! w = 0).
Proof.
  unfold Counter. split; intros Hw.
  - apply (count_occ_In string_dec) in Hw.
    rewrite Counter_lookup_from, lookup_total_empty.
    destruct (count_occ string_dec l w); [lia|]. split; [reflexivity|lia].
  - apply (count_occ_not_In string_dec) in Hw.
    rewrite Counter_lookup_from, Counter_from, Hw, lookup_empty, lookup_total_empty.
    split; reflexivity.
Qed.

Lemma insert_desc_filter k x l :
  List.filter (fun p => snd p =? k) (insert_desc x l)
  = List.filter (fun p => snd p =? k) (x :: l).
Proof.
  induction l as [|y l IH]; cbn [insert_desc]; [reflexivity|].
  destruct (snd x <? snd y) eqn:Hlt; [|reflexivity].
  apply Nat.ltb_lt in Hlt.
  cbn [List.filter] in *. rewrite IH.
  destruct (snd x =? k) eqn:Hx, (snd y =? k) eqn:Hy; try reflexivity.
  apply Nat.eqb_eq in Hx, Hy. lia.
Qed.

(** X8: the ranking is a stable sort: [sorted_desc] returns a rearrangement
    of its input with the counts in descending order, and pairs with the same
    count keep the order they had in the input. *)
Theorem sorted_desc_stable (l : list (string * nat)) :
  sorted_desc l ≡ₚ l /\
  StronglySorted count_ge (sorted_desc l) /\
  forall k, List.filter (fun p => snd p =? k) (sorted_desc l)
            = List.filter (fun p => snd p =? k) l.
Proof.
  split; [apply sorted_desc_perm|]. split; [apply sorted_desc_sorted|].
  intros k. induction l as [|x l IH]; [reflexivity|].
  cbn [sorted_desc foldr]. fold (sorted_desc l).
  rewrite insert_desc_filter. cbn [List.filter]. rewrite IH. reflexivity.
Qed.

Lemma StronglySorted_app_le {A} (R : A -> A -> Prop) (l1 l2 : list A) a b :
  StronglySorted R (l1 ++ l2) -> In a l1 -> In b l2 -> R a b.
Proof.
  induction l1 as [|x l1 IH]; intros Hs Ha Hb; [destruct Ha|].
  cbn in Hs. apply StronglySorted_inv in Hs as [Hs Hx].
  destruct Ha as [->|Ha].
  - rewrite List.Forall_forall in Hx. apply Hx, in_or_app. right. exact Hb.
  - apply IH; assumption.
Qed.

Section GapAnalyzerMore.

Variable set_iter : gset string -> list string.
Hypothesis set_iter_elements : forall X, set_iter X ≡ₚ elements X.

Lemma ranked_all resume_text job_desc :
  let counted :=
    sorted_desc (map (fun word => (word, Counter (get_keywords job_desc) !!! word))
                     (set_iter (missing_set resume_text job_desc))) in
  ranked set_iter resume_text job_desc = take 5 counted /\
  map fst counted ≡ₚ elements (missing_set resume_text job_desc).
Proof.
  cbn zeta. split; [reflexivity|].
  rewrite sorted_desc_perm, map_map. cbn [fst]. rewrite map_id.
  apply set_iter_elements.
Qed.

End GapAnalyzerMore.

(** X9: [analyze_missing] returns no keyword twice, and it returns
    [min(5, n)] keywords when [n] keywords of the job description are neither
    in the résumé nor common words. *)
Theorem analyze_missing_size
    (set_iter : gset string -> list string)
    (set_iter_elements : forall X, set_iter X ≡ₚ elements X)
    (resume_text job_desc : string) :
  exists missing : list string,
    analyze_missing set_iter resume_text job_desc = ret missing /\
    NoDup missing /\
    length missing = Nat.min 5 (size (missing_set resume_text job_desc)).
Proof.
  eexists. split; [apply analyze_missing_ranked|].
  destruct (ranked_all set_iter set_iter_elements resume_text job_desc) as [-> Hp].
  cbn zeta in Hp. rewrite <- List.firstn_map.
  split.
  - eapply sublist_NoDup; [|apply sublist_take].
    rewrite Hp. apply NoDup_elements.
  - rewrite length_take. f_equal. rewrite Hp. reflexivity.
Qed.

Lemma analyze_missing_size_witness :
  exists missing : list string,
    analyze_missing elements "python sql" "Python, Java and Rust; java a must" = ret missing /\
    NoDup missing /\
    length missing
    = Nat.min 5 (size (missing_set "python sql" "Python, Java and Rust; java a must")).
Proof. exact (analyze_missing_size elements elements_order _ _). Defined.

(** X10: the cut to five keeps the most frequent ones: a missing keyword that
    is not returned occurs in the job description at most as often as every
    keyword that is returned. *)
Theorem analyze_missing_keeps_most_frequent
    (set_iter : gset string -> list string)
    (set_iter_elements : forall X, set_iter X ≡ₚ elements X)
    (resume_text job_desc : string) :
  exists missing : list string,
    analyze_missing set_iter resume_text job_desc = ret missing /\
    forall w v,
      w ∈ missing_set resume_text job_desc -> ~ In w missing -> In v missing ->
      count_occ string_dec (get_keywords job_desc) w
      <= count_occ string_dec (get_keywords job_desc) v.
Proof.
  eexists. split; [apply analyze_missing_ranked|].
  intros w v Hw Hnot Hv.
  set (cnt := fun word : string => Counter (get_keywords job_desc) !!! word).
  set (counted := sorted_desc (map (fun word => (word, cnt word))
                     (set_iter (missing_set resume_text job_desc)))).
  change (ranked set_iter resume_text job_desc) with (take 5 counted) in *.
  assert (Hall : forall p, In p counted -> snd p = cnt (fst p)).
  { intros p Hp. apply list_elem_of_In in Hp. unfold counted in Hp.
    rewrite sorted_desc_perm in Hp. apply list_elem_of_In, in_map_iff in Hp.
    destruct Hp as (u & <- & _). reflexivity. }
  assert (Hwin : In (w, cnt w) counted).
  { apply list_elem_of_In. unfold counted. rewrite sorted_desc_perm.
    apply list_elem_of_In, in_map_iff. exists w. split; [reflexivity|].
    apply list_elem_of_In. rewrite set_iter_elements. apply elem_of_elements, Hw. }
  rewrite <- (take_drop 5 counted) in Hwin. apply in_app_or in Hwin.
  destruct Hwin as [Hwin|Hwin].
  { exfalso. apply Hnot. apply in_map_iff. exists (w, cnt w). split; [reflexivity|exact Hwin]. }
  apply in_map_iff in Hv as (pv & <- & Hpv).
  assert (Hs : count_ge pv (w, cnt w)).
  { apply (StronglySorted_app_le count_ge (take 5 counted) (drop 5 counted));
      [|exact Hpv|exact Hwin].
    rewrite take_drop. apply sorted_desc_sorted. }
  unfold count_ge in Hs. cbn [snd] in Hs.
  rewrite (Hall pv) in Hs
    by (rewrite <- (take_drop 5 counted); apply in_or_app; left; exact Hpv).
  unfold cnt in Hs. rewrite !Counter_count in Hs. exact Hs.
Qed.

Lemma analyze_missing_keeps_most_frequent_witness :
  exists missing : list string,
    analyze_missing elements "python" "java rust java scala kotlin swift dart java" = ret missing /\
    forall w v,
      w ∈ missing_set "python" "java rust java scala kotlin swift dart java" ->
      ~ In w missing -> In v missing ->
      count_occ string_dec (get_keywords "java rust java scala kotlin swift dart java") w
      <= count_occ string_dec (get_keywords "java rust java scala kotlin swift dart java") v.
Proof. exact (analyze_missing_keeps_most_frequent elements elements_order _ _). Defined.

Lemma get_keywords_normalized text : get_keywords (clean_text text) = get_keywords text.
Proof.
  rewrite !get_keywords_runs. unfold word_runs_kw.
  rewrite clean_text_squeeze, str_lower_idem, <- squeeze_lower, runs_squeeze.
  reflexivity.
Qed.

(** X11: the gap analysis does not see normalization: cleaning the résumé,
    the job description or both with [clean_text] changes nothing in the
    result of [analyze_missing]. *)
Theorem analyze_missing_clean_text
    (set_iter : gset string -> list string) (resume_text job_desc : string) :
  analyze_missing set_iter (clean_text resume_text) job_desc
  = analyze_missing set_iter resume_text job_desc /\
  analyze_missing set_iter resume_text (clean_text job_desc)
  = analyze_missing set_iter resume_text job_desc /\
  analyze_missing set_iter (clean_text resume_text) (clean_text job_desc)
  = analyze_missing set_iter resume_text job_desc.
Proof.
  unfold analyze_missing. rewrite !get_keywords_normalized. repeat split.
Qed.

(** ** Suggestion generator *)

Lemma prefix_nil s : String.prefix "" s = true.
Proof. destruct s; reflexivity. Qed.

Lemma prefix_squeeze pat : all_chars (fun c => negb (Char.is_space c)) pat = true ->
  forall s, String.prefix pat (squeeze false s) = String.prefix pat s.
Proof.
  induction pat as [|a pat IH]; intros Hpat s; [rewrite !prefix_nil; reflexivity|].
  cbn [all_chars] in Hpat. apply andb_prop in Hpat as [Ha Hpat].
  destruct s as [|c s]; [reflexivity|]. cbn [squeeze].
  destruct (Char.is_space c) eqn:Hc; cbn [String.prefix].
  - destruct (ascii_dec a " ") as [->|_]; [discriminate|].
    destruct (ascii_dec a c) as [->|_]; [|reflexivity].
    rewrite Hc in Ha. discriminate.
  - destruct (ascii_dec a c); [apply IH, Hpat|reflexivity].
Qed.

Lemma prefix_at_space a pat c s :
  Char.is_space a = false -> Char.is_space c = true ->
  String.prefix (String a pat) (String c s) = false.
Proof.
  intros Ha Hc. cbn [String.prefix].
  destruct (ascii_dec a c) as [->|_]; [congruence|reflexivity].
Qed.

Lemma contains_squeeze a pat :
  all_chars (fun c => negb (Char.is_space c)) (String a pat) = true ->
  forall s b, contains (String a pat) (squeeze b s) = contains (String a pat) s.
Proof.
  intros Hpat. pose proof Hpat as Hpat'. cbn [all_chars] in Hpat'.
  apply andb_prop in Hpat' as [Ha _]. apply negb_true_iff in Ha.
  induction s as [|c s IH]; intros b; [reflexivity|].
  cbn [squeeze]. destruct (Char.is_space c) eqn:Hc.
  - cbn [contains]. rewrite (prefix_at_space _ _ _ _ Ha Hc). cbn [orb].
    destruct b; [apply IH|].
    cbn [contains]. rewrite (prefix_at_space _ _ _ _ Ha space_char_is_space).
    apply IH.
  - cbn [contains]. rewrite IH. f_equal.
    pose proof (prefix_squeeze _ Hpat (String c s)) as H.
    cbn [squeeze] in H. rewrite Hc in H. exact H.
Qed.

Lemma rule_job_type_clean_text job_desc :
  rule_job_type (clean_text job_desc) = rule_job_type job_desc.
Proof.
  unfold rule_job_type.
  rewrite clean_text_squeeze, str_lower_idem, <- squeeze_lower.
  rewrite !contains_squeeze by reflexivity. reflexivity.
Qed.

Lemma analyze_missing_normalized set_iter resume_text job_desc :
  analyze_missing set_iter (clean_text resume_text) (clean_text job_desc)
  = analyze_missing set_iter resume_text job_desc.
Proof. unfold analyze_missing. rewrite !get_keywords_normalized. reflexivity. Qed.

(** X12: the suggestions do not see normalization either: with the résumé
    and the job description both cleaned by [clean_text], or only one of them,
    [generate_tailored_suggestions] returns what it returns on the raw
    texts. *)
Theorem generate_tailored_suggestions_clean_text
    (set_iter : gset string -> list string)
    (resume_text job_desc : string) (skill_score : pyval) :
  generate_tailored_suggestions set_iter (clean_text resume_text) (clean_text job_desc) skill_score
  = generate_tailored_suggestions set_iter resume_text job_desc skill_score /\
  generate_tailored_suggestions set_iter (clean_text resume_text) job_desc skill_score
  = generate_tailored_suggestions set_iter resume_text job_desc skill_score /\
  generate_tailored_suggestions set_iter resume_text (clean_text job_desc) skill_score
  = generate_tailored_suggestions set_iter resume_text job_desc skill_score.
Proof.
  assert (H : forall r j r' j',
    analyze_missing set_iter r' j' = analyze_missing set_iter r j ->
    rule_job_type j' = rule_job_type j ->
    generate_tailored_suggestions set_iter r' j' skill_score
    = generate_tailored_suggestions set_iter r j skill_score).
  { intros r j r' j' Hm Hj.
    rewrite (generate_from_missing set_iter r j skill_score _ (analyze_missing_ranked _ _ _)).
    rewrite (generate_from_missing set_iter r' j' skill_score
               (map fst (ranked set_iter r j)))
      by (rewrite Hm; apply analyze_missing_ranked).
    unfold rule_chain. rewrite Hj. reflexivity. }
  repeat split; apply H;
    try apply rule_job_type_clean_text; try reflexivity;
    unfold analyze_missing; rewrite !get_keywords_normalized; reflexivity.
Qed.

Lemma In_fires line : In line (fires true line).
Proof. left. reflexivity. Qed.

(** X13: every missing keyword occurs in the lower-cased job description;
    so when "intern", "design" or "analysis" is reported missing and the
    chain does not fail, the matching job-type line is among the
    suggestions. *)
Theorem missing_keyword_fires_job_type
    (set_iter : gset string -> list string)
    (set_iter_elements : forall X, set_iter X ≡ₚ elements X)
    (resume_text job_desc : string) (skill_score : pyval) :
  exists missing out : list string,
    analyze_missing set_iter resume_text job_desc = ret missing /\
    generate_tailored_suggestions set_iter resume_text job_desc skill_score = ret out /\
    (forall w, In w missing -> contains w (str_lower job_desc) = true) /\
    (chain_fails missing skill_score = false ->
       (In "intern" missing -> In intern_line out) /\
       (In "design" missing -> In design_line out) /\
       (In "analysis" missing -> In analysis_line out)).
Proof.
  eexists _, _. split; [apply analyze_missing_ranked|].
  split; [apply generate_from_missing, analyze_missing_ranked|].
  assert (Hsub : forall w, In w (map fst (ranked set_iter resume_text job_desc)) ->
                           contains w (str_lower job_desc) = true).
  { intros w Hw. apply in_map_iff in Hw as (p & <- & Hp).
    apply list_elem_of_In, (ranked_entries _ set_iter_elements) in Hp as [Hp _].
    unfold missing_set in Hp.
    apply elem_of_difference in Hp as [Hp _].
    apply elem_of_difference in Hp as [Hp _].
    rewrite elem_of_list_to_set in Hp. apply list_elem_of_In in Hp.
    apply contains_occurs, get_keywords_occur, Hp. }
  split; [exact Hsub|].
  intros ->. unfold rule_chain, rule_job_type.
  repeat split; intros Hw; apply Hsub in Hw; rewrite Hw;
    do 3 (apply in_or_app; right).
  - apply in_or_app. left. apply In_fires.
  - apply in_or_app. right. apply in_or_app. left. apply In_fires.
  - apply in_or_app. right. apply in_or_app. right. apply In_fires.
Qed.

Lemma missing_keyword_fires_job_type_witness :
  exists missing out : list string,
    analyze_missing elements "python" "design intern" = ret missing /\
    generate_tailored_suggestions elements "python" "design intern" (PyFloat 47.5) = ret out /\
    (forall w, In w missing -> contains w (str_lower "design intern") = true) /\
    (chain_fails missing (PyFloat 47.5) = false ->
       (In "intern" missing -> In intern_line out) /\
       (In "design" missing -> In design_line out) /\
       (In "analysis" missing -> In analysis_line out)).
Proof. exact (missing_keyword_fires_job_type elements elements_order _ _ _). Defined.

(** ** PDF text extractor *)

Lemma append_nil_r (s : string) : (s ++ "")%string = s.
Proof.
  induction s as [|c s IH]; [reflexivity|]. rewrite append_cons, IH. reflexivity.
Qed.

Lemma concat_cons (x : string) (l : list string) :
  String.concat "" (x :: l) = (x ++ String.concat "" l)%string.
Proof.
  destruct l; cbn [String.concat]; [rewrite append_nil_r|]; reflexivity.
Qed.

Lemma read_pages_ok (texts : list (option string)) : forall text,
  read_pages (map Ok texts) text
  = ret (text ++ String.concat "" (map or_empty texts))%string.
Proof.
  induction texts as [|t texts IH]; intros text.
  - cbn [map read_pages String.concat]. rewrite append_nil_r. reflexivity.
  - cbn [map read_pages]. unfold bind. rewrite IH.
    rewrite concat_cons, append_assoc. reflexivity.
Qed.

Lemma read_pages_raised (texts : list (option string)) e rest : forall text,
  read_pages (map Ok texts ++ Raised e :: rest) text = ([], Raised e).
Proof.
  induction texts as [|t texts IH]; intros text; [reflexivity|].
  cbn [map app read_pages]. unfold bind. rewrite IH. reflexivity.
Qed.

(** X14: when the file opens and every page is read, [extract_text_from_pdf]
    returns the texts of the pages joined in order, a page without text
    ([None] or the empty text) adding nothing, and shows no error. *)
Theorem extract_text_from_pdf_ok (texts : list (option string)) :
  extract_text_from_pdf (Ok (map Ok texts))
  = ret (String.concat "" (map or_empty texts)) /\
  (forall t, or_empty (Some t) = t) /\ or_empty None = "".
Proof.
  split; [|split; [intros [|c t]; reflexivity|reflexivity]].
  unfold extract_text_from_pdf, bind. rewrite read_pages_ok. reflexivity.
Qed.

(** X15: when opening the file or reading any page raises,
    [extract_text_from_pdf] catches the exception, shows one error with its
    message and returns the empty text: the text of the pages read before the
    failure is dropped. *)
Theorem extract_text_from_pdf_failure
    (reader : result (list (result (option string)))) (e : exn) :
  reader = Raised e \/
  (exists texts rest, reader = Ok (map Ok texts ++ Raised e :: rest)) ->
  extract_text_from_pdf reader
  = ([StError ("Error reading PDF: " ++ exn_msg e)], Ok "").
Proof.
  intros [->|(texts & rest & ->)]; [reflexivity|].
  unfold extract_text_from_pdf, bind. rewrite read_pages_raised. reflexivity.
Qed.

Lemma extract_text_from_pdf_failure_witness :
  extract_text_from_pdf
    (Ok [Ok (Some "Curriculum vitae"); Raised (ValueError "broken stream"); Ok None])
  = ([StError "Error reading PDF: broken stream"], Ok "").
Proof.
  apply (extract_text_from_pdf_failure _ (ValueError "broken stream")).
  right. exists [Some "Curriculum vitae"], [Ok None]. reflexivity.
Defined.

(** ** Main application *)

Lemma strip_eqb_blank s : negb (String.eqb (strip s) "") = negb (blank s).
Proof. unfold blank. destruct (strip s); reflexivity. Qed.

(** X16: on the path [main] takes, the early return of
    [calculate_similarity] is never used: the résumé text has passed the test
    [resume_text.strip()], every job description kept by the filter is not
    blank, and the cleaned texts handed to the scorer are not blank either, so
    the vectorizer is called for every analysed job. The filter keeps at most
    three descriptions. *)
Theorem main_always_vectorizes
    (lib : string -> string -> result R)
    (extracted job_desc1 job_desc2 job_desc3 desc : string) :
  blank (clean_text extracted) = false ->
  In desc (job_descriptions job_desc1 job_desc2 job_desc3) ->
  blank desc = false /\
  length (job_descriptions job_desc1 job_desc2 job_desc3) <= 3 /\
  exists evs r,
    calculate_similarity lib (clean_text extracted) (clean_text desc)
    = (FitTransform [clean_text extracted; clean_text desc] :: evs, r).
Proof.
  intros Hr Hd. unfold job_descriptions in Hd.
  apply List.filter_In in Hd as [_ Hd]. rewrite strip_eqb_blank in Hd.
  apply negb_true_iff in Hd. split; [exact Hd|]. split.
  - unfold job_descriptions. apply (List.filter_length_le _ [_; _; _]).
  - assert (Hb : blank (clean_text extracted) || blank (clean_text desc) = false)
      by (rewrite Hr, blank_clean_text, Hd; reflexivity).
    destruct (lib (clean_text extracted) (clean_text desc)) as [c|e] eqn:Hc.
    + eexists _, _. apply (calculate_similarity_ok _ _ _ _ Hb Hc).
    + eexists _, _. apply (calculate_similarity_raised _ _ _ _ Hb Hc).
Qed.

Lemma main_always_vectorizes_witness :
  blank "Data analyst" = false /\
  length (job_descriptions "Data analyst" "   " "") <= 3 /\
  exists evs r,
    calculate_similarity Sklearn.tfidf_cosine (clean_text "Python  developer")
      (clean_text "Data analyst")
    = (FitTransform [clean_text "Python  developer"; clean_text "Data analyst"] :: evs, r).
Proof.
  apply (main_always_vectorizes Sklearn.tfidf_cosine "Python  developer"
           "Data analyst" "   " "" "Data analyst").
  - reflexivity.
  - vm_compute. left. reflexivity.
Defined.
